(** * A shallow embedding of the two-person ledger bot

    The development follows the TypeScript source of the bot, in the variant
    with the participants Sheyx and Polvon, the [debt] and [expenses] modes
    and the approval round of [/clear].  Pure helpers become Rocq functions.
    The handlers become computations in a small state-and-exception monad
    over a [World] that holds the two Mongo collections, the report file,
    the calls made to Telegram in the order they are issued, and how many
    identifiers and clock readings have been consumed.

    What is taken from outside the program enters as a parameter:
    [ADMIN_ID] of the environment, the identifiers [nanoid()] returns and
    the readings [new Date()] returns.  The collections and Telegram are
    taken to answer every call; the only exceptions modelled are the ones
    the program can raise by itself.  Of the balance and list views, which
    only read the ledger, the development has the total and the pagination;
    their wording and the rendering of dates are left out. *)

From Stdlib Require Import ZArith NArith List Bool Lia String Ascii.
From Stdlib Require Import QArith Qround.
From Stdlib Require Import Sorted.
From stdpp Require Import base option list gmap.

Close Scope Q_scope.
Open Scope Z_scope.

(** ** JavaScript strings

    A JavaScript string is a sequence of UTF-16 code units.  The regular
    expressions and [trim] of the source classify code units, so the code
    units are kept as numbers. *)

Abbreviation jsstring := (list N).

(** An ASCII literal as a JavaScript string. *)
Definition js (s : string) : jsstring :=
  map N_of_ascii (list_ascii_of_string s).

(** The class [\s] of a JavaScript regular expression, which is also the
    set of code units removed by [String.prototype.trim]: WhiteSpace and
    LineTerminator. *)
Definition isWhiteSpace (c : N) : bool :=
  ((9 <=? c) && (c <=? 13) || (c =? 32) || (c =? 160) || (c =? 5760)
   || (8192 <=? c) && (c <=? 8202) || (c =? 8232) || (c =? 8233)
   || (c =? 8239) || (c =? 8287) || (c =? 12288) || (c =? 65279))%N.

(** The class [\d]: the ten ASCII digits. *)
Definition isDigit (c : N) : bool := ((48 <=? c) && (c <=? 57))%N.

(** The class [[.,\s_]] of [parseKrwAmount]. *)
Definition isSeparator (c : N) : bool :=
  ((c =? 46) || (c =? 44) || isWhiteSpace c || (c =? 95))%N.

Fixpoint trimStart (s : jsstring) : jsstring :=
  match s with
  | c :: s' => if isWhiteSpace c then trimStart s' else s
  | [] => []
  end.

Definition trim (s : jsstring) : jsstring :=
  rev (trimStart (rev (trimStart s))).

(** [s.split(sep)] for a one-unit separator: never the empty array. *)
Fixpoint split (sep : N) (s : jsstring) : list jsstring :=
  match s with
  | [] => [[]]
  | c :: s' =>
      if (c =? sep)%N then [] :: split sep s'
      else match split sep s' with
           | p :: ps => (c :: p) :: ps
           | [] => [[c]]
           end
  end.

(** [a.join(sep)] for a one-unit separator. *)
Fixpoint join (sep : N) (a : list jsstring) : jsstring :=
  match a with
  | [] => []
  | [p] => p
  | p :: ps => p ++ sep :: join sep ps
  end.

Definition SPACE : N := 32%N.

(** ** JavaScript numbers

    Every amount in the program is a non-negative integer-valued double or
    the half of one.  An integer-valued double is kept as the integer it
    denotes; [None] stands for [+Infinity]. *)

(** The Number value of a non-negative mathematical integer: IEEE 754
    round-to-nearest, ties to even, on a 53-bit significand. *)
Definition Number_of_Z (n : Z) : option Z :=
  let e := Z.log2 n - 52 in
  if e <=? 0 then Some n
  else
    let q := Z.shiftr n e in
    let r := Z.land n (Z.ones e) in
    let half := Z.shiftl 1 (e - 1) in
    let q' := if (half <? r) || ((r =? half) && Z.odd q) then q + 1 else q in
    let v := Z.shiftl q' e in
    if Z.shiftl 1 1024 <=? v then None else Some v.

(** The mathematical integer written by a string of decimal digits. *)
Definition digitValue (c : N) : Z := Z.of_N c - 48.

Definition decimalValue (s : jsstring) : Z :=
  fold_left (fun acc c => 10 * acc + digitValue c) s 0.

(** [/^\d+$/.test(s)] *)
Definition allDigits (s : jsstring) : bool :=
  match s with
  | [] => false
  | _ => forallb isDigit s
  end.

(** [parseInt(s, 10)] on a string that passed [allDigits]: the Number
    value of the integer written.  The integer is taken exactly; the
    language standard also lets an implementation read the digits after the
    twentieth significant one as zeros. *)
Definition parseInt10 (s : jsstring) : option Z :=
  Number_of_Z (decimalValue s).

(** [Math.round]: the nearest integer, the half-way case going up. *)
Definition Math_round (x : Q) : Z := Qfloor (Qplus x (Qmake 1 2)).

(** [a / 2] for an integer-valued double [a]: halving is exact. *)
Definition half_of (a : Z) : Q := Qdiv (inject_Z a) (inject_Z 2).

(** ** Helpers of the source *)

(** [raw.replace(/[.,\s_]/g, '')] *)
Definition strip_separators (raw : jsstring) : jsstring :=
  List.filter (fun c => negb (isSeparator c)) raw.

(**
<<
function parseKrwAmount(raw: string): number | null {
  if (!raw) return null;
  const cleaned = raw.replace(/[.,\s_]/g, '');
  if (!/^\d+$/.test(cleaned)) return null;
  const value = parseInt(cleaned, 10);
  return Number.isFinite(value) ? value : null;
}
>>
*)
Definition parseKrwAmount (raw : jsstring) : option Z :=
  match raw with
  | [] => None
  | _ =>
      let cleaned := strip_separators raw in
      if negb (allDigits cleaned) then None
      else
        match parseInt10 cleaned with
        | Some value => Some value
        | None => None
        end
  end.

(** ** Schemas *)

Inductive UserName := Sheyx | Polvon.

(** [type SessionName = UserName | 'Umumiy' | null]; [null] is the [None]
    of [option SessionName]. *)
Inductive SessionName := Person (u : UserName) | Umumiy.

(** [type Mode = 'debt' | 'expenses' | null] *)
Inductive Mode := debt | expenses.

Record IEntry := mkEntry {
  entry_id : jsstring;
  entry_name : UserName;
  entry_amount : Z;
  entry_note : jsstring;
  entry_time : Z
}.

(** A session document without its key [userId], which indexes the
    collection: the schema declares [userId] unique. *)
Record ISession := mkSession {
  session_name : option SessionName;
  session_mode : option Mode
}.

(** The update document of [findOneAndUpdate]: the fields it sets. *)
Record SessionUpdate := mkUpdate {
  set_name : option (option SessionName);
  set_mode : option (option Mode)
}.

#[global] Instance UserName_eq_dec : EqDecision UserName.
Proof. solve_decision. Defined.
#[global] Instance SessionName_eq_dec : EqDecision SessionName.
Proof. solve_decision. Defined.
#[global] Instance Mode_eq_dec : EqDecision Mode.
Proof. solve_decision. Defined.

(** ** What the bot hands to Telegram

    The texts are kept as constructors that carry the values interpolated
    into them; the wording, the emoji and the [formatKRW] and [moment]
    renderings of those values are not modelled. *)

(** The report built by [buildDetailedReportText]: the clock reading of the
    header, the entries of each person newest first, and the balances of
    the trailer ([None] is [Infinity]). *)
Record ReportText := mkReport {
  report_now : Z;
  report_Sheyx : list IEntry;
  report_Polvon : list IEntry;
  report_balances : option Z * option Z
}.

Inductive Text :=
  | UnauthorizedAlert (username : option jsstring) (from_id : option jsstring)
                      (message : option jsstring)
  | NotAuthorizedBot
  | Welcome
  | WhoIsAdding
  | ErrorOccurred
  | EnterTotalUmumiy
  | OperationCancelled
  | ChooseType (chosen : UserName)
  | EnterTotalExpenses (who : option SessionName)
  | EnterDebt
  | ClearRequest (username : option jsstring)
  | ClearRequestSent
  | ErrorPreparingReport
  | NotAuthorized
  | AllCleared
  | EntriesCleared
  | ClearDeniedByOther
  | YourRequestDenied
  | DeleteUsage
  | EntryNotFound (entryId : jsstring)
  | NotAuthorizedDelete
  | EntryDeleted (entryId : jsstring)
  | EntryDeletedByAdmin (e : IEntry)
  | InvalidAmount
  | UmumiyRecorded (amount share : Z)
  | UmumiyNotice (amount share : Z) (note : jsstring) (at_time : Z)
  | ExpensesRecorded (who : SessionName) (amount half : Z)
  | ExpensesNotice (who : SessionName) (half amount : Z) (note : jsstring)
                   (at_time : Z)
  | DebtRecorded (who : SessionName) (amount : Z)
  | DebtNotice (who : SessionName) (amount : Z) (note : jsstring) (at_time : Z).

Inductive Effect :=
  | Reply (chat : jsstring) (t : Text)
  | SendMessage (to : jsstring) (t : Text)
  | SendDocument (to : jsstring) (content : ReportText)
  | AnswerCbQuery.

(** ** The world a handler runs in *)

Record World := mkWorld {
  entries : list IEntry;
  sessions : gmap jsstring ISession;
  last_entries_txt : option ReportText;
  outbox : list Effect;
  nanoid_calls : nat;
  Date_calls : nat
}.

Definition with_entries (es : list IEntry) (w : World) : World :=
  mkWorld es (sessions w) (last_entries_txt w) (outbox w)
          (nanoid_calls w) (Date_calls w).

Definition with_sessions (ss : gmap jsstring ISession) (w : World) : World :=
  mkWorld (entries w) ss (last_entries_txt w) (outbox w)
          (nanoid_calls w) (Date_calls w).

Definition with_file (f : option ReportText) (w : World) : World :=
  mkWorld (entries w) (sessions w) f (outbox w)
          (nanoid_calls w) (Date_calls w).

Definition with_outbox (o : list Effect) (w : World) : World :=
  mkWorld (entries w) (sessions w) (last_entries_txt w) o
          (nanoid_calls w) (Date_calls w).

(** ** The handler monad: state and exceptions *)

Inductive Outcome (A : Type) :=
  | Returned (a : A)
  | Thrown.
Arguments Returned {A} a.
Arguments Thrown {A}.

Definition M (A : Type) : Type := World -> Outcome A * World.

#[global] Instance M_ret : MRet M := fun A a w => (Returned a, w).

#[global] Instance M_bind : MBind M := fun A B k m w =>
  match m w with
  | (Returned a, w') => k a w'
  | (Thrown, w') => (Thrown, w')
  end.

Definition throw {A} : M A := fun w => (Thrown, w).

(** [try { body } catch { handler }] *)
Definition try_catch {A} (body handler : M A) : M A := fun w =>
  match body w with
  | (Thrown, w') => handler w'
  | r => r
  end.

Definition gets {A} (f : World -> A) : M A := fun w => (Returned (f w), w).
Definition modify (f : World -> World) : M unit := fun w => (Returned tt, f w).

(** [for (const x of xs) body(x)] *)
Fixpoint for_of {A} (xs : list A) (body : A -> M unit) : M unit :=
  match xs with
  | [] => mret tt
  | x :: xs' => body x ;; for_of xs' body
  end.

Definition when (b : bool) (m : M unit) : M unit :=
  if b then m else mret tt.

(** [xs.map(f)] with a callback that has effects *)
Fixpoint map_M {A B} (f : A -> M B) (xs : list A) : M (list B) :=
  match xs with
  | [] => mret []
  | x :: xs' => y ← f x; ys ← map_M f xs'; mret (y :: ys)
  end.

(** ** The context of an update *)

Record From := mkFrom {
  from_id : jsstring;              (* [String(ctx.from.id)] *)
  from_username : option jsstring
}.

Record Ctx := mkCtx {
  ctx_from : option From;
  ctx_chat : jsstring;             (* where [ctx.reply] sends *)
  ctx_message_text : option jsstring
}.

(** [String(ctx.from?.id)] *)
Definition userId_of (ctx : Ctx) : jsstring :=
  match ctx_from ctx with
  | Some f => from_id f
  | None => js "undefined"
  end.

Definition ALLOWED_USERS : list jsstring := [js "615764917"; js "499127006"].

Definition includes (xs : list jsstring) (x : jsstring) : bool :=
  existsb (fun y => bool_decide (y = x)) xs.

(** [ALLOWED_USERS.find((uid) => uid !== userId)] *)
Definition otherUser (userId : jsstring) : option jsstring :=
  List.find (fun uid => negb (bool_decide (uid = userId))) ALLOWED_USERS.

(** ** The collections, the file and Telegram *)

Definition Entry_find : M (list IEntry) := gets entries.

Definition Entry_insertMany (es : list IEntry) : M unit :=
  modify (fun w => with_entries (entries w ++ es) w).

Definition Entry_save (e : IEntry) : M unit :=
  modify (fun w => with_entries (entries w ++ [e]) w).

(** [Entry.deleteMany({})] *)
Definition Entry_deleteMany : M unit := modify (with_entries []).

(** [Entry.findOne({ id })] *)
Definition Entry_findOne (i : jsstring) : M (option IEntry) :=
  gets (fun w => List.find (fun e => bool_decide (entry_id e = i)) (entries w)).

Fixpoint remove_first (i : jsstring) (es : list IEntry) : list IEntry :=
  match es with
  | [] => []
  | e :: es' => if bool_decide (entry_id e = i) then es' else e :: remove_first i es'
  end.

(** [Entry.deleteOne({ id })] *)
Definition Entry_deleteOne (i : jsstring) : M unit :=
  modify (fun w => with_entries (remove_first i (entries w)) w).

(** [Session.findOne({ userId })] *)
Definition Session_findOne (userId : jsstring) : M (option ISession) :=
  gets (fun w => sessions w !! userId).

Definition apply_update (u : SessionUpdate) (s : ISession) : ISession :=
  mkSession (default (session_name s) (set_name u))
            (default (session_mode s) (set_mode u)).

(** [Session.findOneAndUpdate({ userId }, update, { upsert })]; a document
    created by the upsert starts from the schema defaults. *)
Definition Session_findOneAndUpdate (userId : jsstring) (u : SessionUpdate)
    (upsert : bool) : M unit :=
  modify (fun w =>
    match sessions w !! userId with
    | Some s => with_sessions (<[userId := apply_update u s]> (sessions w)) w
    | None =>
        if upsert
        then with_sessions
               (<[userId := apply_update u (mkSession None None)]> (sessions w)) w
        else w
    end).

Definition reset_session : SessionUpdate := mkUpdate (Some None) (Some None).

Definition emit (e : Effect) : M unit :=
  modify (fun w => with_outbox (outbox w ++ [e]) w).

Definition ctx_reply (ctx : Ctx) (t : Text) : M unit :=
  emit (Reply (ctx_chat ctx) t).

Definition sendMessage (to : jsstring) (t : Text) : M unit :=
  emit (SendMessage to t).

(** [bot.telegram.sendMessage(otherUserId!, ...)]: Telegram rejects a call
    without a chat. *)
Definition sendMessage_to (to : option jsstring) (t : Text) : M unit :=
  match to with
  | Some uid => sendMessage uid t
  | None => throw
  end.

Definition answerCbQuery : M unit := emit AnswerCbQuery.

(** [fs.writeFileSync('last_entries.txt', content)] *)
Definition writeFileSync (content : ReportText) : M unit :=
  modify (with_file (Some content)).

(** [bot.telegram.sendDocument(to, { source: 'last_entries.txt' })] *)
Definition sendDocument (to : jsstring) : M unit := fun w =>
  match last_entries_txt w with
  | Some content => emit (SendDocument to content) w
  | None => (Thrown, w)
  end.

(** [ctx.message.text] *)
Definition message_text (ctx : Ctx) : M jsstring :=
  match ctx_message_text ctx with
  | Some t => mret t
  | None => throw
  end.

(** ** Reports *)

(** The sum of two non-negative integer-valued doubles. *)
Definition Number_add (a b : option Z) : option Z :=
  match a, b with
  | Some x, Some y => Number_of_Z (x + y)
  | _, _ => None
  end.

Definition add_balance (b : option Z * option Z) (e : IEntry) : option Z * option Z :=
  match entry_name e with
  | Sheyx => (Number_add (fst b) (Some (entry_amount e)), snd b)
  | Polvon => (fst b, Number_add (snd b) (Some (entry_amount e)))
  end.

(** [getBalances] *)
Definition getBalances : M ((option Z * option Z) * list IEntry) :=
  es ← Entry_find;
  mret (fold_left add_balance es (Some 0, Some 0), es).

Fixpoint insert_newest (x : IEntry) (l : list IEntry) : list IEntry :=
  match l with
  | [] => [x]
  | y :: l' =>
      if entry_time y <=? entry_time x then x :: l
      else y :: insert_newest x l'
  end.

(** [[...entries].sort((a, b) => b.time.getTime() - a.time.getTime())]:
    newest first, entries of equal time in their former order. *)
Definition sort_newest_first (es : list IEntry) : list IEntry :=
  fold_right insert_newest [] es.

Definition named (n : UserName) (es : list IEntry) : list IEntry :=
  List.filter (fun e => bool_decide (entry_name e = n)) es.

Section Bot.

(** [process.env.ADMIN_ID], the identifiers [nanoid()] returns call after
    call, and the readings [new Date()] returns call after call. *)
Variable ADMIN_ID : jsstring.
Variable nanoid : nat -> jsstring.
Variable Date_now : nat -> Z.

Definition nanoid_call : M jsstring := fun w =>
  (Returned (nanoid (nanoid_calls w)),
   mkWorld (entries w) (sessions w) (last_entries_txt w) (outbox w)
           (S (nanoid_calls w)) (Date_calls w)).

Definition new_Date : M Z := fun w =>
  (Returned (Date_now (Date_calls w)),
   mkWorld (entries w) (sessions w) (last_entries_txt w) (outbox w)
           (nanoid_calls w) (S (Date_calls w))).

(** [buildDetailedReportText] *)
Definition buildDetailedReportText (es : list IEntry)
    (balances : option Z * option Z) : M ReportText :=
  let sorted := sort_newest_first es in
  now ← new_Date;
  mret (mkReport now (named Sheyx sorted) (named Polvon sorted) balances).

(** *** Middleware (auth) *)

Definition auth (ctx : Ctx) (next : M unit) : M unit :=
  let userId := userId_of ctx in
  if negb (includes ALLOWED_USERS userId) then
    sendMessage ADMIN_ID
      (UnauthorizedAlert (ctx_from ctx ≫= from_username)
                         (from_id <$> ctx_from ctx)
                         (ctx_message_text ctx));;
    ctx_reply ctx NotAuthorizedBot
  else next.

(** *** Commands and actions of the add flow *)

Definition command_start (ctx : Ctx) : M unit := ctx_reply ctx Welcome.

Definition command_add (ctx : Ctx) : M unit :=
  let userId := userId_of ctx in
  try_catch
    (Session_findOneAndUpdate userId reset_session true;;
     ctx_reply ctx WhoIsAdding)
    (ctx_reply ctx ErrorOccurred).

Definition action_choose_Umumiy (ctx : Ctx) : M unit :=
  let userId := userId_of ctx in
  try_catch
    (Session_findOneAndUpdate userId
       (mkUpdate (Some (Some Umumiy)) (Some None)) true;;
     ctx_reply ctx EnterTotalUmumiy;;
     answerCbQuery)
    (ctx_reply ctx ErrorOccurred;;
     answerCbQuery).

Definition action_choose_cancel (ctx : Ctx) : M unit :=
  let userId := userId_of ctx in
  Session_findOneAndUpdate userId reset_session false;;
  ctx_reply ctx OperationCancelled;;
  answerCbQuery.

Definition command_cancel (ctx : Ctx) : M unit :=
  let userId := userId_of ctx in
  Session_findOneAndUpdate userId reset_session false;;
  ctx_reply ctx OperationCancelled.

(** [bot.action(/choose_(Sheyx|Polvon)/, ...)]; [chosenName] is
    [ctx.match[1]]. *)
Definition action_choose_person (chosenName : UserName) (ctx : Ctx) : M unit :=
  let userId := userId_of ctx in
  Session_findOneAndUpdate userId
    (mkUpdate (Some (Some (Person chosenName))) (Some None)) true;;
  ctx_reply ctx (ChooseType chosenName);;
  answerCbQuery.

Definition action_type_expenses (ctx : Ctx) : M unit :=
  let userId := userId_of ctx in
  sess ← Session_findOne userId;
  let who := sess ≫= session_name in
  Session_findOneAndUpdate userId (mkUpdate None (Some (Some expenses))) false;;
  ctx_reply ctx (EnterTotalExpenses who);;
  answerCbQuery.

Definition action_type_debt (ctx : Ctx) : M unit :=
  let userId := userId_of ctx in
  Session_findOneAndUpdate userId (mkUpdate None (Some (Some debt))) false;;
  ctx_reply ctx EnterDebt;;
  answerCbQuery.

(** *** Clear (with approval) *)

Definition command_clear (ctx : Ctx) : M unit :=
  let userId := userId_of ctx in
  if negb (includes ALLOWED_USERS userId) then ctx_reply ctx NotAuthorized
  else
    try_catch
      (r ← getBalances;
       let balances := fst r in
       let recent := take 4 (sort_newest_first (snd r)) in
       previewText ← buildDetailedReportText recent balances;
       writeFileSync previewText;;
       sendDocument ADMIN_ID;;
       let otherUserId := otherUser userId in
       sendMessage_to otherUserId
         (ClearRequest (ctx_from ctx ≫= from_username));;
       ctx_reply ctx ClearRequestSent)
      (ctx_reply ctx ErrorPreparingReport).

Definition action_approve_clear (ctx : Ctx) : M unit :=
  let userId := userId_of ctx in
  if negb (includes ALLOWED_USERS userId) then ctx_reply ctx NotAuthorized
  else
    Entry_deleteMany;;
    ctx_reply ctx AllCleared;;
    let otherUserId := otherUser userId in
    match otherUserId with
    | Some uid => sendMessage uid EntriesCleared
    | None => mret tt
    end.

Definition action_deny_clear (ctx : Ctx) : M unit :=
  let userId := userId_of ctx in
  if negb (includes ALLOWED_USERS userId) then ctx_reply ctx NotAuthorized
  else
    let otherUserId := otherUser userId in
    sendMessage_to otherUserId ClearDeniedByOther;;
    ctx_reply ctx YourRequestDenied.

(** *** Delete by ID (admin only) *)

Definition command_delete (ctx : Ctx) : M unit :=
  let userId := userId_of ctx in
  text ← message_text ctx;
  let messageParts := split SPACE text in
  if negb (length messageParts =? 2)%nat then ctx_reply ctx DeleteUsage
  else
    let entryId := nth 1 messageParts [] in
    entry ← Entry_findOne entryId;
    match entry with
    | None => ctx_reply ctx (EntryNotFound entryId)
    | Some entry =>
        if negb (includes ALLOWED_USERS userId)
           || negb (bool_decide (userId = ADMIN_ID))
        then ctx_reply ctx NotAuthorizedDelete
        else
          Entry_deleteOne entryId;;
          ctx_reply ctx (EntryDeleted entryId);;
          for_of ALLOWED_USERS (fun uid =>
            when (negb (bool_decide (uid = userId)))
                 (sendMessage uid (EntryDeletedByAdmin entry)))
    end.

(** *** Text handler (core add flow) *)

(** The notification loop that ends each branch:
    [for (const uid of ALLOWED_USERS) if (uid !== userId) sendMessage(uid, ...)],
    the text carrying a fresh reading of the clock. *)
Definition notify_others (userId : jsstring) (text : Z -> Text) : M unit :=
  for_of ALLOWED_USERS (fun uid =>
    when (negb (bool_decide (uid = userId)))
         (now ← new_Date; sendMessage uid (text now))).

(** [new Entry({ id: nanoid(), name, amount, note, time: new Date() })] *)
Definition new_Entry (name : UserName) (amount : Z) (note : jsstring) : M IEntry :=
  i ← nanoid_call;
  t ← new_Date;
  mret (mkEntry i name amount note t).

Definition on_text (ctx : Ctx) : M unit :=
  let userId := userId_of ctx in
  session ← Session_findOne userId;
  match session with
  | None => mret tt
  | Some session =>
  match session_name session with
  | None => mret tt
  | Some name =>
      text ← message_text ctx;
      let parts := split SPACE (trim text) in
      let amount := parseKrwAmount (hd [] parts) in
      let note := join SPACE (tl parts) in
      match amount with
      | None => ctx_reply ctx InvalidAmount
      | Some amount =>
          try_catch
            (match name with
             | Umumiy =>
                 let share := Math_round (half_of amount) in
                 es ← map_M (fun name => new_Entry name share note)
                            [Sheyx; Polvon];
                 Entry_insertMany es;;
                 Session_findOneAndUpdate userId reset_session false;;
                 ctx_reply ctx (UmumiyRecorded amount share);;
                 notify_others userId (UmumiyNotice amount share note)
             | Person who =>
                 if bool_decide (session_mode session = Some expenses) then
                   let half := Math_round (half_of amount) in
                   entry ← new_Entry who half note;
                   Entry_save entry;;
                   Session_findOneAndUpdate userId reset_session false;;
                   ctx_reply ctx (ExpensesRecorded name amount half);;
                   notify_others userId (ExpensesNotice name half amount note)
                 else
                   entry ← new_Entry who amount note;
                   Entry_save entry;;
                   Session_findOneAndUpdate userId reset_session false;;
                   ctx_reply ctx (DebtRecorded name amount);;
                   notify_others userId (DebtNotice name amount note)
             end)
            (ctx_reply ctx ErrorOccurred)
      end
  end
  end.

End Bot.

(** ** The specification's own words, for comparison with the code *)

(** The first whitespace-delimited token of a text: leading whitespace is
    skipped and the token runs up to the next whitespace unit. *)
Fixpoint take_token (s : jsstring) : jsstring :=
  match s with
  | [] => []
  | c :: s' => if isWhiteSpace c then [] else c :: take_token s'
  end.

Definition first_whitespace_token (text : jsstring) : jsstring :=
  take_token (trimStart text).

(** The four separator characters the specification lists: period, comma,
    space, underscore. *)
Definition isListedSeparator (c : N) : bool :=
  ((c =? 46) || (c =? 44) || (c =? 32) || (c =? 95))%N.

Definition strip_listed (raw : jsstring) : jsstring :=
  List.filter (fun c => negb (isListedSeparator c)) raw.

(** What a run of a handler hands to Telegram: the effects it appends. *)
Definition sent_by (m : M unit) (w : World) : list Effect :=
  drop (length (outbox w)) (outbox (snd (m w))).

(** The world after a handler, whatever its outcome. *)
Definition after {A} (m : M A) (w : World) : World := snd (m w).

(** ** Concrete data for the examples *)

Module Sample.

Definition first_user : jsstring := js "615764917".
Definition second_user : jsstring := js "499127006".
Definition stranger : jsstring := js "777000111".

(** The administrator of the examples is the first allow-listed user. *)
Definition admin : jsstring := first_user.

(** The k-th identifier is [entry] followed by the digit k. *)
Definition ids (k : nat) : jsstring := js "entry" ++ [N.of_nat (48 + k)].

(** A clock that advances one millisecond between two readings. *)
Definition ticking (k : nat) : Z := 1000 + Z.of_nat k.

(** A clock that stands still. *)
Definition frozen (_ : nat) : Z := 1000.

(** An update sent by [uid] from the private chat with the bot. *)
Definition update (uid : jsstring) (text : option jsstring) : Ctx :=
  mkCtx (Some (mkFrom uid None)) uid text.

Definition said (uid : jsstring) (text : string) : Ctx :=
  update uid (Some (js text)).

Definition tapped (uid : jsstring) : Ctx := update uid None.

Definition empty : World := mkWorld [] ∅ None [] 0 0.

(** A world in which [uid] has the session [s] and the ledger is [es]. *)
Definition world_with (uid : jsstring) (s : ISession) (es : list IEntry) : World :=
  mkWorld es {[ uid := s ]} None [] 0 0.

Definition lunch : IEntry := mkEntry (js "abc123") Polvon 7000 (js "lunch") 900.

(** [50000], a line feed, [snacks] *)
Definition two_lines : jsstring := js "50000" ++ [10%N] ++ js "snacks".

(** [5], a tabulation, [0] *)
Definition tabbed : jsstring := js "5" ++ [9%N] ++ js "0".

End Sample.

(** ** More of the program *)

(** The decimal digits of [n], least significant last; [fuel] bounds the
    number of digits. *)
Fixpoint toDigits (fuel : nat) (n : Z) : jsstring :=
  match fuel with
  | O => []
  | S fuel' =>
      if n <? 10 then [Z.to_N (48 + n)]
      else toDigits fuel' (n / 10) ++ [Z.to_N (48 + n mod 10)]
  end.

(** [num.toString()] for an integer [0 <= num < 2^53]: its decimal digits,
    without sign, exponent or leading zero.  (Larger doubles print their
    shortest round-trip digits, and from 10^21 on an exponent; the amounts
    formatted here are taken in the exact range.) *)
Definition Number_toString (num : Z) : jsstring :=
  toDigits (S (Z.to_nat (Z.log2 num))) num.

Definition DOT : N := 46%N.

(** [s.replace(/\B(?=(\d{3})+(?!\d))/g, '.')] on a string of digits: a dot
    goes between two digits when the digits that follow, up to the end, come
    in a positive multiple of three. *)
Fixpoint group_thousands (s : jsstring) : jsstring :=
  match s with
  | [] => []
  | c :: rest =>
      c :: (if negb (length rest =? 0)%nat && (length rest mod 3 =? 0)%nat
            then DOT :: group_thousands rest
            else group_thousands rest)
  end.

(**
<<
function formatKRW(num: number): string {
  return num.toString().replace(/\B(?=(\d{3})+(?!\d))/g, '.');
}
>>
*)
Definition formatKRW (num : Z) : jsstring :=
  group_thousands (Number_toString num).

(** The last three decimal digits of [n]. *)
Definition last_three (n : Z) : jsstring :=
  [Z.to_N (48 + n / 100 mod 10); Z.to_N (48 + n / 10 mod 10);
   Z.to_N (48 + n mod 10)].

(** The global match of [/[\s\S]{1,size}/]: greedy runs of [size] units,
    then what is left. *)
Fixpoint chunks_from (fuel size : nat) (s : jsstring) : list jsstring :=
  match fuel with
  | O => []
  | S fuel' =>
      match s with
      | [] => []
      | _ => take size s :: chunks_from fuel' size (drop size s)
      end
  end.

(** [message.match(/[\s\S]{1,4000}/g) || []], the pagination of the list
    views. *)
Definition match_chunks (message : jsstring) : list jsstring :=
  chunks_from (length message) 4000 message.

(** [entries.reduce((sum, entry) => sum + entry.amount, 0)], the total of
    the per-person balance view. *)
Definition reduce_total (found : list IEntry) : option Z :=
  fold_left (fun sum entry => Number_add sum (Some (entry_amount entry)))
            found (Some 0).

(** The exact sum of the amounts attributed to [n]. *)
Definition sum_of (n : UserName) (es : list IEntry) : Z :=
  fold_right (fun e acc => if bool_decide (entry_name e = n)
                           then entry_amount e + acc else acc) 0 es.

(** [balances[name]] *)
Definition balance_of (n : UserName) (balances : option Z * option Z) : option Z :=
  match n with
  | Sheyx => fst balances
  | Polvon => snd balances
  end.

(** An entry at least as new as another. *)
Definition newer_or_same (a b : IEntry) : Prop := entry_time b <= entry_time a.

Section Job.

(** [process.env.ADMIN_ID], the readings of the clock, and the two constant
    texts of the job, which are not among the texts of the handlers: the
    completion notice and the failure notice. *)
Variable ADMIN_ID : jsstring.
Variable Date_now : nat -> Z.
Variable doneMsg : Text.
Variable failedMsg : Text.



End Job.

(** * Properties *)

(** Running a handler: unfold the monad and the primitives, leaving the
    lookups in the collections and the comparisons of identities. *)
Ltac run_M :=
  cbv [after sent_by new_Entry nanoid_call new_Date mbind mret M_bind M_ret
       try_catch throw gets modify map_M for_of when notify_others
       Entry_find Entry_insertMany Entry_save Entry_deleteMany Entry_findOne
       Entry_deleteOne Session_findOne Session_findOneAndUpdate ctx_reply
       sendMessage sendMessage_to sendDocument writeFileSync getBalances
       buildDetailedReportText answerCbQuery emit message_text
       with_entries with_sessions with_outbox with_file
       entries sessions outbox last_entries_txt nanoid_calls Date_calls
       fst snd ALLOWED_USERS negb reset_session].

(** Name the fields of a world, so that a run computes on them. *)
Ltac open_world w :=
  destruct w as [?es ?ss ?file ?out ?n ?d];
  cbn [entries sessions outbox last_entries_txt nanoid_calls Date_calls] in *.

Lemma drop_outbox (o l : list Effect) : drop (length o) (o ++ l) = l.
Proof. apply drop_app_length. Qed.


(** ** Arithmetic of the halves *)

Lemma Math_round_half_of (a : Z) : Math_round (half_of a) = (a + 1) / 2.
Proof.
  unfold Math_round, half_of, Qfloor, Qplus, Qdiv, Qmult, Qinv, inject_Z.
  cbn [Qnum Qden].
  change (Z.pos (1 * 2 * 2)) with (2 * 2).
  change (Z.pos (1 * 2)) with 2.
  replace (a * 1 * 2 + 1 * 2) with ((a + 1) * 2) by lia.
  rewrite Z.div_mul_cancel_r by lia. reflexivity.
Qed.

Lemma Math_round_half_even (a : Z) :
  Z.even a = true -> Math_round (half_of a) + Math_round (half_of a) = a.
Proof.
  intros He. rewrite Math_round_half_of.
  apply Z.even_spec in He as [k ->].
  replace (2 * k + 1) with (1 + k * 2) by lia.
  rewrite Z.div_add by lia. change (1 / 2) with 0. lia.
Qed.

(** ** The amount parser *)

Lemma digitValue_nonneg (c : N) : isDigit c = true -> 0 <= digitValue c <= 9.
Proof.
  unfold isDigit, digitValue. intros H.
  apply andb_true_iff in H as [H1 H2].
  apply N.leb_le in H1, H2. lia.
Qed.

Lemma fold_decimal_nonneg (s : jsstring) (acc : Z) :
  forallb isDigit s = true -> 0 <= acc ->
  0 <= fold_left (fun acc c => 10 * acc + digitValue c) s acc.
Proof.
  revert acc. induction s as [|c s IH]; intros acc Hd Hacc; cbn in *.
  - exact Hacc.
  - apply andb_true_iff in Hd as [Hc Hs].
    apply IH; [exact Hs|]. pose proof (digitValue_nonneg c Hc). lia.
Qed.

Lemma allDigits_forallb (s : jsstring) :
  allDigits s = true -> forallb isDigit s = true /\ s <> [].
Proof. destruct s; cbn; [discriminate|]. intros H. split; [exact H|discriminate]. Qed.

Lemma decimalValue_nonneg (s : jsstring) :
  allDigits s = true -> 0 <= decimalValue s.
Proof.
  intros H. apply allDigits_forallb in H as [H _].
  unfold decimalValue. apply fold_decimal_nonneg; [exact H|lia].
Qed.

Lemma Number_of_Z_exact (n : Z) : n < 2 ^ 53 -> Number_of_Z n = Some n.
Proof.
  intros Hn. unfold Number_of_Z.
  assert (Hl : Z.log2 n <= 52).
  { destruct (Z.le_gt_cases n 0) as [Hle|Hgt].
    - rewrite Z.log2_nonpos by exact Hle. lia.
    - apply Z.log2_lt_pow2 in Hn; [lia|exact Hgt]. }
  destruct (Z.leb_spec (Z.log2 n - 52) 0); [reflexivity|lia].
Qed.

Lemma Number_of_Z_nonneg (n v : Z) : 0 <= n -> Number_of_Z n = Some v -> 0 <= v.
Proof.
  unfold Number_of_Z. intros Hn.
  destruct (Z.leb_spec (Z.log2 n - 52) 0) as [_|He]; [intros [= <-]; exact Hn|].
  cbv zeta.
  match goal with |- context [Z.shiftl 1 1024 <=? ?v] =>
    destruct (Z.shiftl 1 1024 <=? v); [discriminate|] end.
  intros [= <-]. apply Z.shiftl_nonneg.
  assert (0 <= Z.shiftr n (Z.log2 n - 52)) by (apply Z.shiftr_nonneg; exact Hn).
  destruct (_ || _); lia.
Qed.

(** [Number_of_Z] above 2^53, in arithmetic terms: the 53 leading bits,
    rounded to nearest, ties to even. *)
Lemma Number_of_Z_rounding (n : Z) :
  52 < Z.log2 n ->
  let e := Z.log2 n - 52 in
  let q := n / 2 ^ e in
  let r := n mod 2 ^ e in
  let q' := if (2 ^ (e - 1) <? r) || ((r =? 2 ^ (e - 1)) && Z.odd q)
            then q + 1 else q in
  Number_of_Z n = if 2 ^ 1024 <=? q' * 2 ^ e then None else Some (q' * 2 ^ e).
Proof.
  intros HL e q r q'. unfold Number_of_Z. fold e.
  destruct (Z.leb_spec e 0) as [He|He]; [subst e; lia|].
  rewrite Z.shiftr_div_pow2, Z.land_ones by lia.
  rewrite !Z.shiftl_mul_pow2 by lia. rewrite !Z.mul_1_l.
  reflexivity.
Qed.

(** The integers whose Number value is finite are those below the midpoint
    of the largest double and 2^1024. *)
Lemma Number_of_Z_finite (n : Z) :
  0 <= n ->
  Number_of_Z n <> None <-> n < 2 ^ 1024 - 2 ^ 970.
Proof.
  intros Hn.
  destruct (Z.le_gt_cases (Z.log2 n) 52) as [HL|HL].
  - unfold Number_of_Z. destruct (Z.leb_spec (Z.log2 n - 52) 0); [|lia].
    split; [intros _|discriminate].
    destruct (Z.eq_dec n 0) as [->|Hz]; [reflexivity|].
    assert (n < 2 ^ 53).
    { apply Z.log2_lt_pow2; lia. }
    assert (2 ^ 53 < 2 ^ 1024 - 2 ^ 970) by reflexivity. lia.
  - rewrite Number_of_Z_rounding by lia. cbv zeta.
    set (e := Z.log2 n - 52).
    assert (He : 0 < e) by (subst e; lia).
    assert (Hpos : 0 < n).
    { destruct (Z.eq_dec n 0) as [->|]; [cbn in HL; lia|lia]. }
    destruct (Z.log2_spec n Hpos) as [Hlo Hhi].
    replace (Z.log2 n) with (52 + e) in Hlo by (subst e; lia).
    replace (Z.succ (Z.log2 n)) with (53 + e) in Hhi by (subst e; lia).
    rewrite Z.pow_add_r in Hlo, Hhi by lia.
    assert (Hp : 0 < 2 ^ e) by (apply Z.pow_pos_nonneg; lia).
    pose proof (Z.div_mod n (2 ^ e) ltac:(lia)) as Hdm.
    pose proof (Z.mod_pos_bound n (2 ^ e) Hp) as Hr.
    set (q := n / 2 ^ e) in *. set (r := n mod 2 ^ e) in *.
    assert (Hq : 2 ^ 52 <= q < 2 ^ 53).
    { split.
      - apply Z.div_le_lower_bound; lia.
      - apply Z.div_lt_upper_bound; lia. }
    assert (Hhalf : 2 ^ e = 2 * 2 ^ (e - 1)).
    { replace e with (1 + (e - 1)) at 1 by lia.
      rewrite Z.pow_add_r by lia. reflexivity. }
    set (h := 2 ^ (e - 1)) in *.
    set (P := 2 ^ e) in *.
    match goal with |- context [if ?c then q + 1 else q] =>
      set (c0 := c); set (q' := if c0 then q + 1 else q) end.
    assert (Hq' : q <= q' <= q + 1) by (subst q'; destruct c0; lia).
    destruct (Z.lt_trichotomy e 971) as [Hlt|[Heq|Hgt]].
    + (* small exponent *)
      assert (P <= 2 ^ 970).
      { subst P. apply Z.pow_le_mono_r; lia. }
      assert (q' * P <= 2 ^ 53 * 2 ^ 970) by nia.
      assert (2 ^ 53 * 2 ^ 970 < 2 ^ 1024) by reflexivity.
      assert (2 ^ 53 * 2 ^ 970 < 2 ^ 1024 - 2 ^ 970) by reflexivity.
      destruct (Z.leb_spec (2 ^ 1024) (q' * P)); [lia|].
      split; [intros _; nia|discriminate].
    + (* the top binade *)
      assert (HP : 2 ^ 1024 = 2 ^ 53 * P) by (subst P; rewrite Heq; reflexivity).
      assert (Hh : 2 ^ 970 = h) by (subst h; rewrite Heq; reflexivity).
      rewrite HP, Hh. clearbody P h q r. clear Hlo Hhi HP Hh.
      assert (0 < h) by lia.
      destruct (Z.eq_dec q (2 ^ 53 - 1)) as [Hmax|Hnot].
      * subst q' c0. rewrite Hmax. change (Z.odd (2 ^ 53 - 1)) with true.
        rewrite andb_true_r.
        destruct (Z.ltb_spec h r), (Z.eqb_spec r h); cbn [orb];
          match goal with |- context [?a <=? ?b] => destruct (Z.leb_spec a b) end;
          try lia; (split; [try congruence; intros _; lia | try discriminate; lia]).
      * assert (q' * P <= (2 ^ 53 - 1) * P) by (apply Z.mul_le_mono_nonneg_r; lia).
        destruct (Z.leb_spec (2 ^ 53 * P) (q' * P)); [lia|].
        split; [intros _|discriminate].
        assert (P * q <= P * (2 ^ 53 - 2)) by (apply Z.mul_le_mono_nonneg_l; lia).
        lia.
    + assert (2 ^ 972 <= P).
      { subst P. apply Z.pow_le_mono_r; lia. }
      assert (2 ^ 52 * 2 ^ 972 = 2 ^ 1024) by reflexivity.
      assert (2 ^ 1024 <= q' * P) by nia.
      destruct (Z.leb_spec (2 ^ 1024) (q' * P)); [|lia].
      split; [congruence|]. intros. exfalso.
      assert (0 < 2 ^ 970) by reflexivity. nia.
Qed.

(** The parser, case by case on the cleaned text. *)
Lemma parseKrwAmount_cases (raw : jsstring) :
  parseKrwAmount raw =
  if allDigits (strip_separators raw)
  then Number_of_Z (decimalValue (strip_separators raw))
  else None.
Proof.
  unfold parseKrwAmount, parseInt10. destruct raw as [|c raw]; [reflexivity|].
  destruct (allDigits _); cbn [negb]; [|reflexivity].
  destruct (Number_of_Z _); reflexivity.
Qed.

Lemma parseKrwAmount_nonneg (raw : jsstring) (T : Z) :
  parseKrwAmount raw = Some T -> 0 <= T.
Proof.
  rewrite parseKrwAmount_cases.
  destruct (allDigits _) eqn:Hd; [|discriminate].
  apply Number_of_Z_nonneg, decimalValue_nonneg, Hd.
Qed.

(** ** The text handler *)

(** C8.  A free-text message from a sender who has no session document, or
    whose session has no name selected, changes nothing at all: no reply, no
    entry, no session field. *)
Theorem on_text_idle_is_noop (nanoid : nat -> jsstring) (Date_now : nat -> Z)
    (ctx : Ctx) (w : World) :
  (sessions w !! userId_of ctx = None \/
   exists s, sessions w !! userId_of ctx = Some s /\ session_name s = None) ->
  on_text nanoid Date_now ctx w = (Returned tt, w) /\
  sent_by (on_text nanoid Date_now ctx) w = [].
Proof.
  intros H.
  assert (E : on_text nanoid Date_now ctx w = (Returned tt, w)).
  { open_world w. unfold on_text. run_M.
    destruct H as [H|(s & H & Hn)]; rewrite H; [reflexivity|].
    rewrite Hn. reflexivity. }
  split; [exact E|].
  unfold sent_by. rewrite E. cbn [snd]. apply drop_all.
Qed.

Lemma on_text_idle_is_noop_witness :
  sessions Sample.empty !! userId_of (Sample.said Sample.first_user "hello") = None /\
  on_text Sample.ids Sample.ticking (Sample.said Sample.first_user "hello") Sample.empty
  = (Returned tt, Sample.empty).
Proof.
  split; [reflexivity|].
  apply (on_text_idle_is_noop Sample.ids Sample.ticking
           (Sample.said Sample.first_user "hello") Sample.empty).
  left. reflexivity.
Defined.

(** C4.  When a name is selected and the first part of the message is not an
    amount, the handler replies with the invalid-amount guidance and changes
    nothing else: the session keeps its name and mode and the ledger keeps
    its entries, so the same message flow can be retried. *)
Theorem on_text_invalid_amount (nanoid : nat -> jsstring) (Date_now : nat -> Z)
    (ctx : Ctx) (w : World) (s : ISession) (n : SessionName) (text : jsstring) :
  sessions w !! userId_of ctx = Some s ->
  session_name s = Some n ->
  ctx_message_text ctx = Some text ->
  parseKrwAmount (hd [] (split SPACE (trim text))) = None ->
  on_text nanoid Date_now ctx w
  = (Returned tt, with_outbox (outbox w ++ [Reply (ctx_chat ctx) InvalidAmount]) w) /\
  sessions (after (on_text nanoid Date_now ctx) w) = sessions w /\
  entries (after (on_text nanoid Date_now ctx) w) = entries w.
Proof.
  intros H Hn Ht Hp.
  assert (E : on_text nanoid Date_now ctx w
              = (Returned tt,
                 with_outbox (outbox w ++ [Reply (ctx_chat ctx) InvalidAmount]) w)).
  { open_world w. unfold on_text. run_M. rewrite H, Hn, Ht, Hp. reflexivity. }
  split; [exact E|]. unfold after. rewrite E. split; reflexivity.
Qed.

Lemma on_text_invalid_amount_witness :
  let ctx := Sample.said Sample.first_user "12a lunch" in
  let w := Sample.world_with Sample.first_user
             (mkSession (Some (Person Sheyx)) (Some expenses)) [Sample.lunch] in
  parseKrwAmount (hd [] (split SPACE (trim (js "12a lunch")))) = None /\
  sessions (after (on_text Sample.ids Sample.ticking ctx) w) = sessions w /\
  entries (after (on_text Sample.ids Sample.ticking ctx) w) = entries w.
Proof.
  intros ctx w. split; [reflexivity|].
  apply (on_text_invalid_amount Sample.ids Sample.ticking ctx w
           (mkSession (Some (Person Sheyx)) (Some expenses)) (Person Sheyx)
           (js "12a lunch")); reflexivity.
Defined.

(** The parts of a message the handler works on. *)
Lemma insert_reset_twice (ss : gmap jsstring ISession) (uid : jsstring)
    (s s' : ISession) :
  <[uid := s]> (<[uid := s']> ss) = <[uid := s]> ss.
Proof. apply insert_insert_eq. Qed.

(** C1, as the code has it.  With the split target selected and an amount
    [T] parsed from the first space-delimited part of the trimmed message,
    the handler completes, appends exactly two entries, Sheyx's then
    Polvon's, each of amount [Math.round(T / 2)] and with the same note, and
    resets the session.  Each entry carries its own reading of the clock,
    taken when it is built.  [T] is non-negative; for [T = 50000] each share
    is [25000]; for even [T] the two shares sum to [T]. *)
Theorem on_text_split_commit (nanoid : nat -> jsstring) (Date_now : nat -> Z)
    (ctx : Ctx) (w : World) (s : ISession) (text : jsstring) (T : Z) :
  sessions w !! userId_of ctx = Some s ->
  session_name s = Some Umumiy ->
  ctx_message_text ctx = Some text ->
  parseKrwAmount (hd [] (split SPACE (trim text))) = Some T ->
  let share := Math_round (half_of T) in
  let note := join SPACE (tl (split SPACE (trim text))) in
  let w' := after (on_text nanoid Date_now ctx) w in
  fst (on_text nanoid Date_now ctx w) = Returned tt /\
  entries w' =
    entries w ++
    [mkEntry (nanoid (nanoid_calls w)) Sheyx share note (Date_now (Date_calls w));
     mkEntry (nanoid (S (nanoid_calls w))) Polvon share note
             (Date_now (S (Date_calls w)))] /\
  sessions w' = <[userId_of ctx := mkSession None None]> (sessions w) /\
  0 <= T /\
  (T = 50000 -> share = 25000) /\
  (Z.even T = true -> share + share = T).
Proof.
  intros H Hn Ht Hp share note w'.
  assert (E : fst (on_text nanoid Date_now ctx w) = Returned tt /\
              entries w' = entries w ++
                [mkEntry (nanoid (nanoid_calls w)) Sheyx share note
                         (Date_now (Date_calls w));
                 mkEntry (nanoid (S (nanoid_calls w))) Polvon share note
                         (Date_now (S (Date_calls w)))] /\
              sessions w' = <[userId_of ctx := mkSession None None]> (sessions w)).
  { subst w' share note. open_world w. unfold on_text. run_M.
    rewrite H, Hn, Ht, Hp, H.
    destruct (bool_decide _), (bool_decide _); repeat split. }
  destruct E as (E1 & E2 & E3). repeat split; try assumption.
  - eapply parseKrwAmount_nonneg, Hp.
  - intros ->. reflexivity.
  - apply Math_round_half_even.
Qed.

Lemma on_text_split_commit_witness :
  let ctx := Sample.said Sample.first_user "50000 snacks" in
  let w := Sample.world_with Sample.first_user (mkSession (Some Umumiy) None) [] in
  parseKrwAmount (hd [] (split SPACE (trim (js "50000 snacks")))) = Some 50000 /\
  entries (after (on_text Sample.ids Sample.ticking ctx) w) =
    [mkEntry (js "entry0") Sheyx 25000 (js "snacks") 1000;
     mkEntry (js "entry1") Polvon 25000 (js "snacks") 1001].
Proof.
  intros ctx w. split; [reflexivity|].
  exact (proj1 (proj2
    (on_text_split_commit Sample.ids Sample.ticking ctx w
       (mkSession (Some Umumiy) None) (js "50000 snacks") 50000
       eq_refl eq_refl eq_refl eq_refl))).
Defined.

(** C1, as the claim words it, fails on the timestamp: the two entries of a
    split are built one after the other, each with its own [new Date()], so
    a clock that advances in between gives them different times. *)
Lemma split_entries_times_differ :
  let ctx := Sample.said Sample.first_user "50000 snacks" in
  let w := Sample.world_with Sample.first_user (mkSession (Some Umumiy) None) [] in
  exists e1 e2,
    entries (after (on_text Sample.ids Sample.ticking ctx) w) = [e1; e2] /\
    entry_amount e1 = 25000 /\ entry_amount e2 = 25000 /\
    entry_time e1 <> entry_time e2.
Proof.
  intros ctx w.
  exists (mkEntry (js "entry0") Sheyx 25000 (js "snacks") 1000),
         (mkEntry (js "entry1") Polvon 25000 (js "snacks") 1001).
  repeat split; discriminate.
Qed.

(** The token of C1 is the first part of [text.trim().split(' ')], not the
    first whitespace-delimited token: when a line feed follows the amount,
    the whitespace-delimited token parses to 50000, yet the handler answers
    with the invalid-amount guidance and stores nothing. *)
Lemma split_line_feed_rejected :
  let ctx := Sample.update Sample.first_user (Some Sample.two_lines) in
  let w := Sample.world_with Sample.first_user (mkSession (Some Umumiy) None) [] in
  parseKrwAmount (first_whitespace_token Sample.two_lines) = Some 50000 /\
  entries (after (on_text Sample.ids Sample.ticking ctx) w) = [] /\
  sent_by (on_text Sample.ids Sample.ticking ctx) w
  = [Reply Sample.first_user InvalidAmount].
Proof. repeat split. Qed.

(** C3.  With a participant selected and the mode [expenses], an amount [T]
    makes the handler complete and append exactly one entry, attributed to
    the chosen participant, of amount [Math.round(T / 2)]; whatever the
    ledger holds afterwards was there before or belongs to that
    participant. *)
Theorem on_text_expenses_commit (nanoid : nat -> jsstring) (Date_now : nat -> Z)
    (ctx : Ctx) (w : World) (s : ISession) (who : UserName) (text : jsstring)
    (T : Z) :
  sessions w !! userId_of ctx = Some s ->
  session_name s = Some (Person who) ->
  session_mode s = Some expenses ->
  ctx_message_text ctx = Some text ->
  parseKrwAmount (hd [] (split SPACE (trim text))) = Some T ->
  let note := join SPACE (tl (split SPACE (trim text))) in
  let w' := after (on_text nanoid Date_now ctx) w in
  fst (on_text nanoid Date_now ctx w) = Returned tt /\
  entries w' =
    entries w ++
    [mkEntry (nanoid (nanoid_calls w)) who (Math_round (half_of T)) note
             (Date_now (Date_calls w))] /\
  (forall e, In e (entries w') -> In e (entries w) \/ entry_name e = who) /\
  sessions w' = <[userId_of ctx := mkSession None None]> (sessions w).
Proof.
  intros H Hn Hm Ht Hp note w'.
  assert (E : fst (on_text nanoid Date_now ctx w) = Returned tt /\
              entries w' = entries w ++
                [mkEntry (nanoid (nanoid_calls w)) who (Math_round (half_of T))
                         note (Date_now (Date_calls w))] /\
              sessions w' = <[userId_of ctx := mkSession None None]> (sessions w)).
  { subst w' note. open_world w. unfold on_text. run_M.
    rewrite H, Hn, Ht, Hp, Hm.
    rewrite (bool_decide_eq_true_2 (Some expenses = Some expenses)) by reflexivity.
    rewrite H.
    destruct (bool_decide _), (bool_decide _); repeat split. }
  destruct E as (E1 & E2 & E3). repeat split; try assumption.
  intros e He. rewrite E2 in He. apply in_app_or in He as [He|[<-|[]]].
  - left. exact He.
  - right. reflexivity.
Qed.

Lemma on_text_expenses_commit_witness :
  let ctx := Sample.said Sample.second_user "50.001 lunch and tea" in
  let s := mkSession (Some (Person Polvon)) (Some expenses) in
  let w := Sample.world_with Sample.second_user s [] in
  parseKrwAmount (hd [] (split SPACE (trim (js "50.001 lunch and tea")))) = Some 50001 /\
  entries (after (on_text Sample.ids Sample.ticking ctx) w) =
    [mkEntry (js "entry0") Polvon 25001 (js "lunch and tea") 1000].
Proof.
  intros ctx s w. split; [reflexivity|].
  exact (proj1 (proj2
    (on_text_expenses_commit Sample.ids Sample.ticking ctx w s Polvon
       (js "50.001 lunch and tea") 50001 eq_refl eq_refl eq_refl eq_refl eq_refl))).
Defined.

(** The session a tap on a participant's button leaves: that participant,
    no mode. *)
Lemma choose_person_session (chosen : UserName) (ctx : Ctx) (w : World) :
  fst (action_choose_person chosen ctx w) = Returned tt /\
  sessions (after (action_choose_person chosen ctx) w) !! userId_of ctx
  = Some (mkSession (Some (Person chosen)) None) /\
  entries (after (action_choose_person chosen ctx) w) = entries w.
Proof.
  open_world w. unfold action_choose_person. run_M.
  destruct (ss !! userId_of ctx); cbv [apply_update default set_name set_mode];
    repeat split; apply lookup_insert_eq.
Qed.

(** C9.  With a participant selected and no mode chosen, an amount [T] is
    committed the way the [debt] mode commits it: the handler completes,
    appends exactly one entry of the full amount [T] for that participant
    and resets the session; the run is the very run of the same world with
    the mode set to [debt]. *)
Theorem on_text_default_is_debt (nanoid : nat -> jsstring) (Date_now : nat -> Z)
    (ctx : Ctx) (w : World) (s : ISession) (who : UserName) (text : jsstring)
    (T : Z) :
  sessions w !! userId_of ctx = Some s ->
  session_name s = Some (Person who) ->
  session_mode s = None ->
  ctx_message_text ctx = Some text ->
  parseKrwAmount (hd [] (split SPACE (trim text))) = Some T ->
  let note := join SPACE (tl (split SPACE (trim text))) in
  let w' := after (on_text nanoid Date_now ctx) w in
  let w_debt :=
    with_sessions
      (<[userId_of ctx := mkSession (Some (Person who)) (Some debt)]> (sessions w)) w in
  fst (on_text nanoid Date_now ctx w) = Returned tt /\
  entries w' =
    entries w ++
    [mkEntry (nanoid (nanoid_calls w)) who T note (Date_now (Date_calls w))] /\
  sessions w' = <[userId_of ctx := mkSession None None]> (sessions w) /\
  on_text nanoid Date_now ctx w = on_text nanoid Date_now ctx w_debt.
Proof.
  intros H Hn Hm Ht Hp note w' w_debt.
  subst w' w_debt note. open_world w. unfold on_text. run_M.
  rewrite H, Hn, Ht, Hp, Hm, lookup_insert_eq.
  cbn [session_name session_mode].
  rewrite (bool_decide_eq_false_2 (None = Some expenses)) by discriminate.
  rewrite (bool_decide_eq_false_2 (Some debt = Some expenses)) by discriminate.
  rewrite H, lookup_insert_eq, insert_reset_twice.
  cbv [apply_update default set_name set_mode].
  destruct (bool_decide _), (bool_decide _); repeat split.
Qed.

Lemma on_text_default_is_debt_witness :
  let tap := Sample.tapped Sample.first_user in
  let ctx := Sample.said Sample.first_user "30.000 borrowed" in
  let w := after (action_choose_person Sheyx tap) Sample.empty in
  sessions w !! Sample.first_user = Some (mkSession (Some (Person Sheyx)) None) /\
  entries (after (on_text Sample.ids Sample.ticking ctx) w) =
    [mkEntry (js "entry0") Sheyx 30000 (js "borrowed") 1000] /\
  sessions (after (on_text Sample.ids Sample.ticking ctx) w) !! Sample.first_user
  = Some (mkSession None None).
Proof.
  intros tap ctx w. split; [reflexivity|].
  pose proof (on_text_default_is_debt Sample.ids Sample.ticking ctx w
                (mkSession (Some (Person Sheyx)) None) Sheyx
                (js "30.000 borrowed") 30000
                eq_refl eq_refl eq_refl eq_refl eq_refl) as (_ & E & S & _).
  split; [exact E|]. rewrite S. reflexivity.
Defined.

(** The add flow from end to end: [/add], a tap on Sheyx, a tap on Debt and
    the text [30.000 borrowed] leave one entry of 30000 for Sheyx, an idle
    session, and a notice to the other allow-listed identity. *)
Example add_debt_scenario :
  let u := Sample.first_user in
  let tap := Sample.tapped u in
  let w :=
    after (on_text Sample.ids Sample.ticking (Sample.said u "30.000 borrowed"))
      (after (action_type_debt tap)
         (after (action_choose_person Sheyx tap)
            (after (command_add (Sample.said u "/add")) Sample.empty))) in
  entries w = [mkEntry (js "entry0") Sheyx 30000 (js "borrowed") 1000] /\
  sessions w !! u = Some (mkSession None None) /\
  In (SendMessage Sample.second_user
        (DebtNotice (Person Sheyx) 30000 (js "borrowed") 1001))
     (outbox w).
Proof. vm_compute. repeat split. do 6 right. left. reflexivity. Qed.

(** ** The access guard *)

(** C7.  An update from an identity that is not allow-listed is answered by
    an alert to the administrator, carrying the sender's username and id and
    the text of the message, and by the refusal; the rest of the chain
    ([next], which stands for every command, action and text handler) is
    never run and neither collection changes. *)
Theorem auth_refuses_stranger (ADMIN_ID : jsstring) (ctx : Ctx) (next : M unit)
    (w : World) :
  includes ALLOWED_USERS (userId_of ctx) = false ->
  auth ADMIN_ID ctx next w
  = (Returned tt,
     with_outbox
       (outbox w ++
        [SendMessage ADMIN_ID
           (UnauthorizedAlert (ctx_from ctx ≫= from_username)
                              (from_id <$> ctx_from ctx)
                              (ctx_message_text ctx));
         Reply (ctx_chat ctx) NotAuthorizedBot]) w) /\
  entries (after (auth ADMIN_ID ctx next) w) = entries w /\
  sessions (after (auth ADMIN_ID ctx next) w) = sessions w /\
  (forall f t, ctx_from ctx = Some f -> ctx_message_text ctx = Some t ->
     In (SendMessage ADMIN_ID
           (UnauthorizedAlert (from_username f) (Some (from_id f)) (Some t)))
        (sent_by (auth ADMIN_ID ctx next) w)).
Proof.
  intros H. open_world w. unfold auth. rewrite H. run_M.
  rewrite <- app_assoc. cbn [app]. repeat split.
  intros f t -> ->. rewrite drop_outbox. left. reflexivity.
Qed.

Lemma auth_refuses_stranger_witness :
  let ctx := Sample.said Sample.stranger "/clear" in
  includes ALLOWED_USERS (userId_of ctx) = false /\
  after (auth Sample.admin ctx (command_clear Sample.admin Sample.ticking ctx))
        (Sample.world_with Sample.first_user (mkSession None None) [Sample.lunch])
  = mkWorld [Sample.lunch] {[ Sample.first_user := mkSession None None ]} None
      [SendMessage Sample.admin
         (UnauthorizedAlert None (Some Sample.stranger) (Some (js "/clear")));
       Reply Sample.stranger NotAuthorizedBot] 0 0.
Proof.
  intros ctx. split; [reflexivity|].
  unfold after.
  rewrite (proj1 (auth_refuses_stranger Sample.admin ctx
                    (command_clear Sample.admin Sample.ticking ctx)
                    (Sample.world_with Sample.first_user (mkSession None None)
                       [Sample.lunch]) eq_refl)).
  reflexivity.
Defined.

(** An allow-listed identity passes the guard: the chain goes on. *)
Lemma auth_passes_allowed (ADMIN_ID : jsstring) (ctx : Ctx) (next : M unit) :
  includes ALLOWED_USERS (userId_of ctx) = true ->
  auth ADMIN_ID ctx next = next.
Proof. intros H. unfold auth. rewrite H. reflexivity. Qed.

(** ** Clearing with approval *)

Lemma allowed_cases (uid : jsstring) :
  includes ALLOWED_USERS uid = true ->
  uid = Sample.first_user \/ uid = Sample.second_user.
Proof.
  unfold includes, ALLOWED_USERS. cbn [existsb]. rewrite orb_false_r.
  intros H. apply orb_true_iff in H as [H|H]; apply bool_decide_eq_true in H;
    [left|right]; symmetry; exact H.
Qed.

(** The two allow-listed identities are each other's [otherUser]. *)
Lemma otherUser_swaps (uid : jsstring) :
  includes ALLOWED_USERS uid = true ->
  exists o, otherUser uid = Some o /\ otherUser o = Some uid /\
            includes ALLOWED_USERS o = true.
Proof.
  intros H. destruct (allowed_cases uid H) as [-> | ->].
  - exists Sample.second_user. repeat split.
  - exists Sample.first_user. repeat split.
Qed.

(** What [/clear] hands to Telegram when an allow-listed identity sends it:
    the report to the administrator, the approve-or-deny prompt to the other
    allow-listed identity, the acknowledgement to the requester. *)
Lemma command_clear_sent (ADMIN_ID : jsstring) (Date_now : nat -> Z)
    (ctx : Ctx) (w : World) :
  includes ALLOWED_USERS (userId_of ctx) = true ->
  exists report o,
    otherUser (userId_of ctx) = Some o /\
    sent_by (command_clear ADMIN_ID Date_now ctx) w
    = [SendDocument ADMIN_ID report;
       SendMessage o (ClearRequest (ctx_from ctx ≫= from_username));
       Reply (ctx_chat ctx) ClearRequestSent] /\
    entries (after (command_clear ADMIN_ID Date_now ctx) w) = entries w.
Proof.
  intros H. destruct (otherUser_swaps _ H) as (o & Ho & _ & _).
  open_world w. unfold command_clear. rewrite H, Ho. run_M.
  eexists _, o. split; [reflexivity|].
  rewrite <- !app_assoc. cbn [app]. rewrite drop_outbox. split; reflexivity.
Qed.

(** C5.  A deny by an allow-listed identity deletes nothing: the handler
    completes, the entries and the sessions are what they were, and the
    other allow-listed identity is told of the denial.  When the denier is
    the one the requester's [/clear] prompted, that other identity is the
    requester. *)
Theorem deny_clear_keeps_ledger (ADMIN_ID : jsstring) (Date_now : nat -> Z)
    (denier : Ctx) (w : World) :
  includes ALLOWED_USERS (userId_of denier) = true ->
  fst (action_deny_clear denier w) = Returned tt /\
  entries (after (action_deny_clear denier) w) = entries w /\
  sessions (after (action_deny_clear denier) w) = sessions w /\
  (exists o, otherUser (userId_of denier) = Some o /\
     sent_by (action_deny_clear denier) w
     = [SendMessage o ClearDeniedByOther;
        Reply (ctx_chat denier) YourRequestDenied]) /\
  (forall (requester : Ctx) (w0 : World) (u : option jsstring),
     includes ALLOWED_USERS (userId_of requester) = true ->
     In (SendMessage (userId_of denier) (ClearRequest u))
        (sent_by (command_clear ADMIN_ID Date_now requester) w0) ->
     In (SendMessage (userId_of requester) ClearDeniedByOther)
        (sent_by (action_deny_clear denier) w)).
Proof.
  intros H. destruct (otherUser_swaps _ H) as (o & Ho & Hback & Hoa).
  assert (S : sent_by (action_deny_clear denier) w
              = [SendMessage o ClearDeniedByOther;
                 Reply (ctx_chat denier) YourRequestDenied]).
  { open_world w. unfold action_deny_clear. rewrite H, Ho. run_M.
    rewrite <- app_assoc. apply drop_outbox. }
  repeat split.
  - open_world w. unfold action_deny_clear. rewrite H, Ho. reflexivity.
  - open_world w. unfold action_deny_clear. rewrite H, Ho. reflexivity.
  - open_world w. unfold action_deny_clear. rewrite H, Ho. reflexivity.
  - exists o. split; [exact Ho|exact S].
  - intros requester w0 u Hr Hin.
    destruct (command_clear_sent ADMIN_ID Date_now requester w0 Hr)
      as (report & o' & Ho' & Hsent & _).
    rewrite Hsent in Hin.
    destruct Hin as [Hin|[Hin|[Hin|[]]]]; try discriminate Hin.
    injection Hin as Hto _.
    destruct (otherUser_swaps _ Hr) as (o'' & Ho'' & Hback' & _).
    assert (o'' = o') by congruence. subst o''.
    assert (o = userId_of requester) by congruence. subst o.
    rewrite S. left. reflexivity.
Qed.

Lemma deny_clear_keeps_ledger_witness :
  let requester := Sample.said Sample.first_user "/clear" in
  let denier := Sample.tapped Sample.second_user in
  let w0 := Sample.world_with Sample.first_user (mkSession None None) [Sample.lunch] in
  let w := after (command_clear Sample.admin Sample.ticking requester) w0 in
  includes ALLOWED_USERS (userId_of denier) = true /\
  entries (after (action_deny_clear denier) w) = [Sample.lunch] /\
  In (SendMessage Sample.first_user ClearDeniedByOther)
     (sent_by (action_deny_clear denier) w).
Proof.
  intros requester denier w0 w.
  pose proof (deny_clear_keeps_ledger Sample.admin Sample.ticking denier w eq_refl)
    as (_ & E & _ & _ & N).
  split; [reflexivity|]. split; [exact E|].
  apply (N requester w0 None eq_refl). right. left. reflexivity.
Defined.

(** C6.  An approval by an allow-listed identity completes and leaves the
    ledger empty; a second approval completes too and leaves the same, empty
    ledger; on a ledger that is already empty the delete-all completes and
    changes nothing.  As an operation on the world the delete-all is
    idempotent.  The sessions are not touched. *)
Theorem approve_clear_idempotent (first second : Ctx) (w : World) :
  includes ALLOWED_USERS (userId_of first) = true ->
  includes ALLOWED_USERS (userId_of second) = true ->
  let w1 := after (action_approve_clear first) w in
  let w2 := after (action_approve_clear second) w1 in
  fst (action_approve_clear first w) = Returned tt /\
  entries w1 = [] /\
  fst (action_approve_clear second w1) = Returned tt /\
  entries w2 = entries w1 /\
  sessions w2 = sessions w /\
  after Entry_deleteMany (after Entry_deleteMany w) = after Entry_deleteMany w /\
  (entries w = [] -> Entry_deleteMany w = (Returned tt, w)).
Proof.
  intros H1 H2 w1 w2. subst w1 w2.
  destruct (otherUser_swaps _ H1) as (o1 & Ho1 & _ & _).
  destruct (otherUser_swaps _ H2) as (o2 & Ho2 & _ & _).
  open_world w. unfold action_approve_clear. rewrite H1, H2, Ho1, Ho2.
  repeat split. intros ->. reflexivity.
Qed.

Lemma approve_clear_idempotent_witness :
  let approver := Sample.tapped Sample.second_user in
  let w := Sample.world_with Sample.first_user (mkSession None None) [Sample.lunch] in
  includes ALLOWED_USERS (userId_of approver) = true /\
  entries (after (action_approve_clear approver) w) = [] /\
  entries (after (action_approve_clear approver)
                 (after (action_approve_clear approver) w)) = [].
Proof.
  intros approver w.
  pose proof (approve_clear_idempotent approver approver w eq_refl eq_refl)
    as (_ & E1 & _ & E2 & _).
  split; [reflexivity|]. split; [exact E1|]. rewrite E2. exact E1.
Defined.

(** ** Delete by id *)

Lemma findOne_absent (i : jsstring) (es : list IEntry) :
  ~ In i (map entry_id es) ->
  List.find (fun e => bool_decide (entry_id e = i)) es = None.
Proof.
  induction es as [|e es IH]; cbn; [reflexivity|]. intros Hn.
  rewrite bool_decide_eq_false_2 by (intros E; apply Hn; left; exact E).
  apply IH. intros Hin. apply Hn. right. exact Hin.
Qed.

Lemma findOne_present (i : jsstring) (es : list IEntry) :
  In i (map entry_id es) ->
  exists e, List.find (fun e => bool_decide (entry_id e = i)) es = Some e.
Proof.
  induction es as [|e es IH]; cbn; [intros []|]. intros Hin.
  destruct (bool_decide (entry_id e = i)) eqn:E; [exists e; reflexivity|].
  apply bool_decide_eq_false in E. destruct Hin as [Hin|Hin]; [contradiction|].
  apply IH, Hin.
Qed.

Lemma findOne_some_present (i : jsstring) (es : list IEntry) (e : IEntry) :
  List.find (fun e => bool_decide (entry_id e = i)) es = Some e ->
  In i (map entry_id es).
Proof.
  intros H. apply find_some in H as [Hin He].
  apply bool_decide_eq_true in He. subst i. apply in_map, Hin.
Qed.

(** C10.  [/delete <id>] from an allow-listed identity looks the entry up
    before it looks at who asks.  When the message is the command and one
    id, and no entry has the id, the reply is the not-found text,
    administrator or not, and nothing else happens.  When an entry has the
    id and the sender is not the administrator, the reply is the refusal and
    nothing else happens; in particular the ledger is unchanged.  The
    refusal is sent in no other case, whatever the message. *)
Theorem delete_looks_up_before_authorizing (ADMIN_ID : jsstring) (ctx : Ctx)
    (w : World) (text : jsstring) :
  includes ALLOWED_USERS (userId_of ctx) = true ->
  ctx_message_text ctx = Some text ->
  (forall command entryId,
     split SPACE text = [command; entryId] ->
     ~ In entryId (map entry_id (entries w)) ->
     command_delete ADMIN_ID ctx w
     = (Returned tt,
        with_outbox (outbox w ++ [Reply (ctx_chat ctx) (EntryNotFound entryId)]) w)) /\
  (forall command entryId,
     split SPACE text = [command; entryId] ->
     In entryId (map entry_id (entries w)) -> userId_of ctx <> ADMIN_ID ->
     command_delete ADMIN_ID ctx w
     = (Returned tt,
        with_outbox (outbox w ++ [Reply (ctx_chat ctx) NotAuthorizedDelete]) w) /\
     entries (after (command_delete ADMIN_ID ctx) w) = entries w) /\
  (In (Reply (ctx_chat ctx) NotAuthorizedDelete)
      (sent_by (command_delete ADMIN_ID ctx) w) ->
   exists command entryId,
     split SPACE text = [command; entryId] /\
     In entryId (map entry_id (entries w)) /\ userId_of ctx <> ADMIN_ID).
Proof.
  intros Ha Ht. open_world w. unfold command_delete. run_M.
  unfold ALLOWED_USERS in Ha. rewrite Ht, Ha. cbn [orb].
  split; [|split].
  - intros command entryId -> Hn. cbn [length Nat.eqb nth].
    rewrite (findOne_absent _ _ Hn). reflexivity.
  - intros command entryId -> Hin Hne. cbn [length Nat.eqb nth].
    destruct (findOne_present _ _ Hin) as [e ->].
    rewrite bool_decide_eq_false_2 by exact Hne. split; reflexivity.
  - destruct (split SPACE text) as [|command [|entryId [|extra rest]]];
      cbn [length Nat.eqb nth];
      try (rewrite drop_outbox; intros [Hin|[]]; discriminate Hin).
    destruct (List.find _ es) as [e|] eqn:Hf.
    + destruct (bool_decide (userId_of ctx = ADMIN_ID)) eqn:Hadm.
      * clear Hadm.
        destruct (bool_decide (js "615764917" = userId_of ctx)),
                 (bool_decide (js "499127006" = userId_of ctx));
          run_M; rewrite <- ?app_assoc; cbn [app]; rewrite drop_outbox;
          intros Hin; repeat (destruct Hin as [Hin|Hin]; [discriminate Hin|]);
          destruct Hin.
      * intros _. exists command, entryId. split; [reflexivity|].
        split; [eapply findOne_some_present, Hf|].
        apply bool_decide_eq_false in Hadm. exact Hadm.
    + rewrite drop_outbox. intros [Hin|[]]. discriminate Hin.
Qed.

Lemma delete_looks_up_before_authorizing_witness :
  let w := Sample.world_with Sample.first_user (mkSession None None) [Sample.lunch] in
  let by_admin := Sample.said Sample.first_user "/delete nothere" in
  let by_other := Sample.said Sample.second_user "/delete abc123" in
  includes ALLOWED_USERS (userId_of by_admin) = true /\
  split SPACE (js "/delete nothere") = [js "/delete"; js "nothere"] /\
  sent_by (command_delete Sample.admin by_admin) w
  = [Reply Sample.first_user (EntryNotFound (js "nothere"))] /\
  entries (after (command_delete Sample.admin by_other) w) = [Sample.lunch].
Proof.
  intros w by_admin by_other.
  pose proof (delete_looks_up_before_authorizing Sample.admin by_admin w
                (js "/delete nothere") eq_refl eq_refl) as (NF & _ & _).
  pose proof (delete_looks_up_before_authorizing Sample.admin by_other w
                (js "/delete abc123") eq_refl eq_refl) as (_ & RF & _).
  split; [reflexivity|]. split; [reflexivity|]. split.
  - unfold sent_by. rewrite (NF (js "/delete") (js "nothere")); [reflexivity..|].
    cbn. intros [E|[]]. discriminate E.
  - apply (RF (js "/delete") (js "abc123")); [reflexivity|left; reflexivity|discriminate].
Defined.

(** ** The amount parser, as the code has it *)

(** C2, as the code has it.  The parser removes the period, the comma, the
    underscore and every unit of the class [\s] (the space and the other
    whitespace), and succeeds exactly when what remains is non-empty, all
    decimal digits, and writes an integer whose Number value is finite, that
    is an integer below 2^1024 - 2^970.  The result is the Number value of
    the integer written, which is non-negative and is that integer itself
    below 2^53.  The five spellings of fifty thousand parse to 50000 and
    [abc], [12a] and the empty text fail. *)
Theorem parseKrwAmount_spec :
  (forall raw : jsstring,
     let cleaned := strip_separators raw in
     (forall c, In c cleaned <-> In c raw /\ isSeparator c = false) /\
     (is_Some (parseKrwAmount raw) <->
      allDigits cleaned = true /\ decimalValue cleaned < 2 ^ 1024 - 2 ^ 970) /\
     (forall v, parseKrwAmount raw = Some v ->
        Number_of_Z (decimalValue cleaned) = Some v /\ 0 <= v) /\
     (allDigits cleaned = true -> decimalValue cleaned < 2 ^ 53 ->
        parseKrwAmount raw = Some (decimalValue cleaned)) /\
     (allDigits cleaned = false -> parseKrwAmount raw = None)) /\
  parseKrwAmount (js "50.000") = Some 50000 /\
  parseKrwAmount (js "50,000") = Some 50000 /\
  parseKrwAmount (js "50 000") = Some 50000 /\
  parseKrwAmount (js "50_000") = Some 50000 /\
  parseKrwAmount (js "50000") = Some 50000 /\
  parseKrwAmount (js "abc") = None /\
  parseKrwAmount (js "12a") = None /\
  parseKrwAmount (js "") = None.
Proof.
  split; [|repeat split].
  intros raw cleaned. subst cleaned. rewrite parseKrwAmount_cases.
  split; [|split; [|split; [|split]]].
  - intros c. unfold strip_separators. rewrite filter_In, negb_true_iff. reflexivity.
  - destruct (allDigits (strip_separators raw)) eqn:Hd.
    + pose proof (Number_of_Z_finite _ (decimalValue_nonneg _ Hd)) as Hf.
      split.
      * intros [v Hv]. split; [reflexivity|]. apply Hf. congruence.
      * intros [_ Hlt]. apply Hf in Hlt.
        destruct (Number_of_Z _) as [v|]; [exists v; reflexivity|contradiction].
    + split; [intros [v Hv]; discriminate|intros [Hd' _]; discriminate].
  - intros v. destruct (allDigits (strip_separators raw)) eqn:Hd; [|discriminate].
    intros Hv. split; [exact Hv|].
    eapply Number_of_Z_nonneg; [apply decimalValue_nonneg, Hd|exact Hv].
  - intros -> Hlt. apply Number_of_Z_exact, Hlt.
  - intros ->. reflexivity.
Qed.

Lemma parseKrwAmount_spec_witness :
  allDigits (strip_separators (js "1.234_567")) = true /\
  decimalValue (strip_separators (js "1.234_567")) < 2 ^ 53 /\
  parseKrwAmount (js "1.234_567") = Some 1234567.
Proof.
  split; [reflexivity|]. split; [reflexivity|].
  destruct parseKrwAmount_spec as [general _].
  destruct (general (js "1.234_567")) as (_ & _ & _ & exact_below & _).
  apply exact_below; reflexivity.
Defined.

(** C2, as the claim words it, fails: a tabulation is not one of the four
    listed separators, so what remains of [5<TAB>0] after removing those is
    not all digits and the claim has the parser fail; the parser removes the
    tabulation with the rest of the class [\s] and returns 50. *)
Lemma parse_strips_tabulation :
  allDigits (strip_listed Sample.tabbed) = false /\
  parseKrwAmount Sample.tabbed = Some 50.
Proof. split; reflexivity. Qed.

(** Two more departures from the integer written: above 2^53 the result is
    the nearest double, and a text of four hundred nines is all digits but
    writes an integer whose Number value is [Infinity], so it is refused. *)
Lemma parse_large_amounts :
  parseKrwAmount (js "9007199254740993") = Some 9007199254740992 /\
  allDigits (strip_separators (repeat 57%N 400)) = true /\
  parseKrwAmount (repeat 57%N 400) = None.
Proof. repeat split; vm_compute; reflexivity. Qed.

(** * More of the program, verified *)

(** ** Printing numbers *)

Lemma decimalValue_snoc (s : jsstring) (c : N) :
  decimalValue (s ++ [c]) = 10 * decimalValue s + digitValue c.
Proof. unfold decimalValue. rewrite fold_left_app. reflexivity. Qed.

Lemma digit_unit (d : Z) :
  0 <= d < 10 ->
  isDigit (Z.to_N (48 + d)) = true /\ digitValue (Z.to_N (48 + d)) = d /\
  isSeparator (Z.to_N (48 + d)) = false.
Proof.
  intros Hd.
  assert (H : d = 0 \/ d = 1 \/ d = 2 \/ d = 3 \/ d = 4 \/ d = 5 \/ d = 6 \/
              d = 7 \/ d = 8 \/ d = 9) by lia.
  repeat (destruct H as [->|H]; [repeat split|]). subst. repeat split.
Qed.

Lemma toDigits_spec (fuel : nat) (n : Z) :
  0 <= n < 2 ^ Z.of_nat fuel ->
  decimalValue (toDigits fuel n) = n /\
  forallb isDigit (toDigits fuel n) = true /\
  forallb (fun c => negb (isSeparator c)) (toDigits fuel n) = true.
Proof.
  revert n. induction fuel as [|fuel IH]; intros n Hn.
  - cbn in Hn. assert (n = 0) by lia. subst. repeat split.
  - cbn [toDigits]. destruct (Z.ltb_spec n 10) as [Hlt|Hge].
    + destruct (digit_unit n ltac:(lia)) as (Hd & Hv & Hs).
      cbn. rewrite Hd, Hs. unfold decimalValue. cbn. rewrite Hv. repeat split.
    + assert (Hq : 0 <= n / 10 < 2 ^ Z.of_nat fuel).
      { split; [apply Z.div_pos; lia|].
        apply Z.div_lt_upper_bound; [lia|].
        rewrite Nat2Z.inj_succ, Z.pow_succ_r in Hn by lia. lia. }
      destruct (IH _ Hq) as (Hv & Hd & Hs).
      pose proof (Z.mod_pos_bound n 10 ltac:(lia)) as Hm.
      destruct (digit_unit (n mod 10) Hm) as (Hd' & Hv' & Hs').
      rewrite decimalValue_snoc, Hv, Hv', !forallb_app, Hd, Hs. cbn.
      rewrite Hd', Hs'. repeat split.
      pose proof (Z.div_mod n 10 ltac:(lia)). lia.
Qed.

Lemma toDigits_nonempty (fuel : nat) (n : Z) : toDigits (S fuel) n <> [].
Proof.
  cbn [toDigits]. destruct (n <? 10); [discriminate|].
  intros H. apply app_eq_nil in H as [_ H]. discriminate.
Qed.

Lemma Number_toString_spec (n : Z) :
  0 <= n ->
  allDigits (Number_toString n) = true /\
  decimalValue (Number_toString n) = n /\
  strip_separators (Number_toString n) = Number_toString n.
Proof.
  intros Hn. unfold Number_toString.
  assert (Hb : 0 <= n < 2 ^ Z.of_nat (S (Z.to_nat (Z.log2 n)))).
  { split; [exact Hn|]. rewrite Nat2Z.inj_succ, Z2Nat.id by apply Z.log2_nonneg.
    destruct (Z.eq_dec n 0) as [->|Hz]; [reflexivity|].
    apply Z.log2_spec. lia. }
  destruct (toDigits_spec _ _ Hb) as (Hv & Hd & Hs).
  split; [|split; [exact Hv|]].
  - unfold allDigits.
    destruct (toDigits _ n) eqn:E; [|exact Hd].
    exfalso. eapply toDigits_nonempty, E.
  - unfold strip_separators. apply forallb_filter_id. exact Hs.
Qed.

Lemma group_thousands_strip (s : jsstring) :
  forallb (fun c => negb (isSeparator c)) s = true ->
  strip_separators (group_thousands s) = s.
Proof.
  induction s as [|c s IH]; [reflexivity|]. cbn [forallb group_thousands].
  intros H. apply andb_true_iff in H as [Hc Hs].
  unfold strip_separators in *. cbn [List.filter]. rewrite Hc.
  destruct (_ && _); cbn [List.filter isSeparator]; rewrite ?IH by exact Hs;
    reflexivity.
Qed.

Lemma group_thousands_short (s : jsstring) :
  (length s <= 3)%nat -> group_thousands s = s.
Proof.
  destruct s as [|a [|b [|c [|d s]]]]; cbn; try reflexivity. lia.
Qed.

Lemma group_thousands_app (a b : jsstring) :
  a <> [] -> length b = 3%nat ->
  group_thousands (a ++ b) = group_thousands a ++ DOT :: b.
Proof.
  intros Ha Hb. induction a as [|c a IH]; [contradiction|].
  cbn [app group_thousands]. destruct a as [|c' a].
  - cbn [app length]. rewrite Hb. cbn. rewrite group_thousands_short by lia.
    reflexivity.
  - rewrite IH by discriminate.
    rewrite length_app, Hb.
    replace (length (c' :: a) + 3)%nat with (3 + length (c' :: a))%nat by lia.
    assert (E : ((3 + length (c' :: a)) mod 3 = length (c' :: a) mod 3)%nat).
    { rewrite <- Nat.Div0.add_mod_idemp_l. reflexivity. }
    rewrite E. cbn [length Nat.eqb negb andb plus].
    destruct (_ =? 0)%nat; reflexivity.
Qed.

Lemma toDigits_fuel (f f' : nat) (n : Z) :
  0 <= n < 2 ^ Z.of_nat (S f) -> n < 2 ^ Z.of_nat (S f') ->
  toDigits (S f) n = toDigits (S f') n.
Proof.
  revert f' n. induction f as [|f IH]; intros f' n Hn Hn'.
  - cbn in Hn. cbn [toDigits]. destruct (Z.ltb_spec n 10); [reflexivity|lia].
  - cbn [toDigits]. destruct (Z.ltb_spec n 10) as [|Hge]; [reflexivity|].
    destruct f' as [|f'].
    { change (2 ^ Z.of_nat 1) with 2 in Hn'. lia. }
    change (toDigits (S (S f')) n) with
      (if n <? 10 then [Z.to_N (48 + n)]
       else toDigits (S f') (n / 10) ++ [Z.to_N (48 + n mod 10)]).
    destruct (Z.ltb_spec n 10); [lia|].
    f_equal. apply IH.
    + split; [apply Z.div_pos; lia|]. apply Z.div_lt_upper_bound; [lia|].
      rewrite (Nat2Z.inj_succ (S f)), Z.pow_succ_r in Hn by lia. lia.
    + apply Z.div_lt_upper_bound; [lia|].
      rewrite (Nat2Z.inj_succ (S f')), Z.pow_succ_r in Hn' by lia. lia.
Qed.

Lemma log2_fuel (n : Z) : 0 <= n -> 0 <= n < 2 ^ Z.of_nat (S (Z.to_nat (Z.log2 n))).
Proof.
  intros Hn. split; [exact Hn|].
  rewrite Nat2Z.inj_succ, Z2Nat.id by apply Z.log2_nonneg.
  destruct (Z.eq_dec n 0) as [->|Hz]; [reflexivity|]. apply Z.log2_spec. lia.
Qed.

Lemma toDigits_S (fuel : nat) (n : Z) :
  toDigits (S fuel) n =
  if n <? 10 then [Z.to_N (48 + n)]
  else toDigits fuel (n / 10) ++ [Z.to_N (48 + n mod 10)].
Proof. reflexivity. Qed.

Lemma Number_toString_thousands (n : Z) :
  1000 <= n ->
  Number_toString n = Number_toString (n / 1000) ++ last_three n.
Proof.
  intros Hn. unfold Number_toString.
  pose proof (log2_fuel n ltac:(lia)) as Hf.
  set (f := Z.to_nat (Z.log2 n)) in *.
  assert (Hq : 0 <= n / 1000) by (apply Z.div_pos; lia).
  pose proof (log2_fuel (n / 1000) Hq) as Hf'.
  set (g := Z.to_nat (Z.log2 (n / 1000))) in *.
  destruct f as [|[|[|f]]].
  1-3: cbn in Hf; lia.
  rewrite (toDigits_S (S (S (S f))) n).
  destruct (Z.ltb_spec n 10); [lia|].
  rewrite (toDigits_S (S (S f)) (n / 10)).
  destruct (Z.ltb_spec (n / 10) 10); [Z.div_mod_to_equations; lia|].
  rewrite (toDigits_S (S f) (n / 10 / 10)).
  destruct (Z.ltb_spec (n / 10 / 10) 10); [Z.div_mod_to_equations; lia|].
  rewrite <- !app_assoc. cbn [app]. unfold last_three.
  replace (n / 10 / 10 / 10) with (n / 1000)
    by (rewrite !Z.div_div by lia; reflexivity).
  replace (n / 10 / 10) with (n / 100)
    by (rewrite !Z.div_div by lia; reflexivity).
  f_equal.
  apply toDigits_fuel; [|lia].
  split; [lia|].
  rewrite !Nat2Z.inj_succ, !Z.pow_succ_r in Hf by lia.
  rewrite Nat2Z.inj_succ, Z.pow_succ_r by lia.
  assert (0 < 2 ^ Z.of_nat f) by (apply Z.pow_pos_nonneg; lia).
  apply Z.div_lt_upper_bound; lia.
Qed.

(** [formatKRW] groups from the right: an amount below a thousand is its
    plain decimal digits, without a dot; a larger one is the formatting of
    its thousands, a dot, and its last three digits, zeros kept. *)
Theorem formatKRW_thousands (n : Z) :
  0 <= n < 2 ^ 53 ->
  formatKRW n =
  if n <? 1000 then Number_toString n
  else formatKRW (n / 1000) ++ DOT :: last_three n.
Proof.
  intros [Hn _]. unfold formatKRW. destruct (Z.ltb_spec n 1000) as [Hlt|Hge].
  - apply group_thousands_short. unfold Number_toString.
    assert (Hl : Z.log2 n < 10).
    { destruct (Z.eq_dec n 0) as [->|]; [reflexivity|].
      apply Z.log2_lt_pow2; [lia|]. change (2 ^ 10) with 1024. lia. }
    pose proof (Z.log2_nonneg n).
    rewrite (toDigits_fuel _ 9) by
      (pose proof (log2_fuel n Hn); change (2 ^ Z.of_nat 10) with 1024; lia).
    rewrite (toDigits_S 9 n).
    destruct (n <? 10); [cbn; lia|].
    rewrite (toDigits_S 8 (n / 10)).
    destruct (n / 10 <? 10); [cbn; lia|].
    rewrite (toDigits_S 7 (n / 10 / 10)).
    destruct (Z.ltb_spec (n / 10 / 10) 10); [cbn; lia|].
    Z.div_mod_to_equations; lia.
  - rewrite Number_toString_thousands by exact Hge.
    apply group_thousands_app; [|reflexivity].
    unfold Number_toString. apply toDigits_nonempty.
Qed.

Lemma split_nonempty (sep : N) (s : jsstring) : split sep s <> [].
Proof.
  destruct s as [|c s]; cbn; [discriminate|].
  destruct (c =? sep)%N; [discriminate|]. destruct (split sep s); discriminate.
Qed.

Lemma join_cons (sep : N) (p : jsstring) (ps : list jsstring) :
  join sep (p :: ps) =
  p ++ match ps with [] => [] | _ => sep :: join sep ps end.
Proof. destruct ps; cbn; [rewrite app_nil_r|]; reflexivity. Qed.

Lemma join_split (sep : N) (s : jsstring) : join sep (split sep s) = s.
Proof.
  induction s as [|c s IH]; [reflexivity|]. cbn [split].
  pose proof (split_nonempty sep s) as Hne.
  destruct (N.eqb_spec c sep) as [->|Hc].
  - rewrite join_cons. destruct (split sep s) as [|p ps]; [contradiction|].
    cbn [app]. rewrite IH. reflexivity.
  - destruct (split sep s) as [|p ps]; [contradiction|].
    rewrite join_cons in *. cbn [app]. rewrite IH. reflexivity.
Qed.

Lemma split_parts_without_sep (sep : N) (s : jsstring) :
  Forall (fun p => ~ In sep p) (split sep s).
Proof.
  induction s as [|c s IH]; cbn [split].
  - constructor; [intros []|constructor].
  - destruct (N.eqb_spec c sep) as [->|Hc].
    + constructor; [intros []|exact IH].
    + destruct (split sep s) as [|p ps]; [repeat constructor; intros [?|[]]; congruence|].
      inversion IH as [|? ? Hp Hps]; subst. constructor; [|exact Hps].
      intros [E|Hin]; [congruence|contradiction].
Qed.

(** ** The parts of a message *)

(** The text handler loses nothing of a message: the trimmed text is the
    amount part, which holds no space, followed when there is more by one
    space and the note, which keeps every later space as typed.  A trimmed
    text without a space is all amount and the note is empty. *)
Theorem message_is_amount_then_note (text : jsstring) :
  let parts := split SPACE (trim text) in
  let token := hd [] parts in
  let note := join SPACE (tl parts) in
  ~ In SPACE token /\
  trim text = token ++ match tl parts with [] => [] | _ => SPACE :: note end /\
  (~ In SPACE (trim text) -> token = trim text /\ note = []).
Proof.
  intros parts token note. subst token note.
  pose proof (split_nonempty SPACE (trim text)) as Hne.
  pose proof (split_parts_without_sep SPACE (trim text)) as Hf.
  pose proof (join_split SPACE (trim text)) as Hj.
  fold parts in Hne, Hf, Hj. destruct parts as [|p ps]; [contradiction|].
  cbn [hd tl]. rewrite join_cons in Hj.
  split; [inversion Hf; assumption|]. split; [symmetry; exact Hj|].
  intros Hns. destruct ps as [|q qs]; [rewrite app_nil_r in Hj; split; [exact Hj|reflexivity]|].
  exfalso. apply Hns. rewrite <- Hj. apply in_or_app. right. left. reflexivity.
Qed.

(** ** Sorting newest first *)

Lemma insert_newest_perm (x : IEntry) (l : list IEntry) :
  Permutation (insert_newest x l) (x :: l).
Proof.
  induction l as [|y l IH]; cbn; [reflexivity|].
  destruct (entry_time y <=? entry_time x); [reflexivity|].
  rewrite IH. apply perm_swap.
Qed.

Lemma insert_newest_sorted (x : IEntry) (l : list IEntry) :
  StronglySorted newer_or_same l -> StronglySorted newer_or_same (insert_newest x l).
Proof.
  induction l as [|y l IH]; intros Hs; cbn.
  - repeat constructor.
  - destruct (Z.leb_spec (entry_time y) (entry_time x)) as [Hle|Hgt].
    + constructor; [exact Hs|]. inversion Hs as [|? ? Hl Hy]; subst.
      constructor; [exact Hle|].
      eapply Forall_impl; [exact Hy|]. unfold newer_or_same. intros; lia.
    + inversion Hs as [|? ? Hl Hy]; subst. constructor; [apply IH, Hl|].
      rewrite insert_newest_perm. constructor; [unfold newer_or_same; lia|exact Hy].
Qed.

Lemma insert_newest_stable (t : Z) (x : IEntry) (l : list IEntry) :
  List.filter (fun e => bool_decide (entry_time e = t)) (insert_newest x l)
  = List.filter (fun e => bool_decide (entry_time e = t)) (x :: l).
Proof.
  induction l as [|y l IH]; [reflexivity|]. cbn [insert_newest].
  destruct (Z.leb_spec (entry_time y) (entry_time x)) as [Hle|Hgt]; [reflexivity|].
  cbn [List.filter] in *. rewrite IH.
  destruct (bool_decide (entry_time y = t)) eqn:Ey; [|reflexivity].
  apply bool_decide_eq_true in Ey.
  rewrite bool_decide_eq_false_2 by lia. reflexivity.
Qed.

Lemma sorted_head_stays (x : IEntry) (l : list IEntry) :
  StronglySorted newer_or_same (x :: l) -> insert_newest x l = x :: l.
Proof.
  intros Hs. inversion Hs as [|? ? Hl Hx]; subst.
  destruct l as [|y l]; [reflexivity|]. cbn.
  inversion Hx as [|? ? Hy _]; subst. unfold newer_or_same in Hy.
  destruct (Z.leb_spec (entry_time y) (entry_time x)); [reflexivity|lia].
Qed.

Lemma sort_sorted_id (l : list IEntry) :
  StronglySorted newer_or_same l -> sort_newest_first l = l.
Proof.
  induction 1 as [|x l Hl IH Hx]; [reflexivity|].
  cbn [sort_newest_first fold_right]. unfold sort_newest_first in IH.
  rewrite IH. apply sorted_head_stays. constructor; assumption.
Qed.

(** The sort of the reports rearranges the entries and drops or repeats
    none, puts no entry before a newer one, keeps entries of the same time
    in the order they had, and leaves a list already newest first as it
    is. *)
Theorem sort_newest_first_spec (es : list IEntry) :
  Permutation (sort_newest_first es) es /\
  StronglySorted newer_or_same (sort_newest_first es) /\
  (forall t, List.filter (fun e => bool_decide (entry_time e = t)) (sort_newest_first es)
             = List.filter (fun e => bool_decide (entry_time e = t)) es) /\
  sort_newest_first (sort_newest_first es) = sort_newest_first es.
Proof.
  assert (P : Permutation (sort_newest_first es) es).
  { induction es as [|x es IH]; [reflexivity|]. cbn.
    rewrite insert_newest_perm, IH. reflexivity. }
  assert (S : StronglySorted newer_or_same (sort_newest_first es)).
  { clear P. induction es as [|x es IH]; [constructor|]. cbn.
    apply insert_newest_sorted, IH. }
  split; [exact P|]. split; [exact S|]. split.
  - intros t. clear P S. induction es as [|x es IH]; [reflexivity|].
    cbn [sort_newest_first fold_right]. rewrite insert_newest_stable.
    cbn [List.filter]. unfold sort_newest_first in IH. rewrite IH. reflexivity.
  - apply sort_sorted_id, S.
Qed.

Lemma chunks_from_spec (size fuel : nat) (s : jsstring) :
  (0 < size)%nat -> (length s <= fuel)%nat ->
  let cs := chunks_from fuel size s in
  concat cs = s /\
  Forall (fun c => (1 <= length c <= size)%nat) cs /\
  (forall i c, cs !! i = Some c -> (S i < length cs)%nat -> length c = size) /\
  (length cs * size < length s + size)%nat /\ (length s <= length cs * size)%nat.
Proof.
  intros Hsize. revert s. induction fuel as [|fuel IH]; intros s Hlen cs; subst cs.
  - destruct s; [|cbn in Hlen; lia].
    repeat split;
      first [reflexivity | constructor | (intros i c H; discriminate H) | (cbn; lia)].
  - cbn [chunks_from]. destruct s as [|u s].
    { repeat split;
        first [reflexivity | constructor | (intros i c H; discriminate H) | (cbn; lia)]. }
    set (m := u :: s) in *.
    assert (Hm : (1 <= length m)%nat) by (cbn; lia).
    assert (Hd : (length (drop size m) <= fuel)%nat) by (rewrite length_drop; lia).
    destruct (IH (drop size m) Hd) as (Hc & Hf & Hfull & Hup & Hlo).
    assert (Hnil : (length m <= size)%nat -> chunks_from fuel size (drop size m) = []).
    { intros Hle. rewrite drop_ge by exact Hle. destruct fuel; reflexivity. }
    cbn [concat length]. rewrite Hc, take_drop.
    rewrite length_drop in Hup, Hlo.
    split; [reflexivity|]. split; [|split; [|split]].
    + constructor; [rewrite length_take; lia|exact Hf].
    + intros [|i] c Hi Hlt; cbn in Hi.
      * injection Hi as <-. rewrite length_take.
        destruct (Nat.le_gt_cases (length m) size) as [Hle|Hgt]; [|lia].
        rewrite (Hnil Hle) in Hlt. cbn in Hlt. lia.
      * apply (Hfull i c Hi). lia.
    + destruct (Nat.le_gt_cases (length m) size) as [Hle|Hgt].
      * rewrite (Hnil Hle). cbn. lia.
      * cbn [Nat.mul]. lia.
    + cbn [Nat.mul]. lia.
Qed.

(** ** Pagination of the lists *)

(** The chunks of a list view, put end to end, are the message; no chunk is
    empty or longer than 4000 units, every chunk but the last is exactly
    4000 units long, and there are as many as the length divided by 4000,
    rounded up (none for the empty message). *)
Theorem match_chunks_spec (message : jsstring) :
  let chunks := match_chunks message in
  concat chunks = message /\
  Forall (fun c => (1 <= length c <= 4000)%nat) chunks /\
  (forall i c, chunks !! i = Some c -> (S i < length chunks)%nat ->
               length c = 4000%nat) /\
  length chunks = ((length message + 3999) / 4000)%nat.
Proof.
  intros chunks. subst chunks. unfold match_chunks.
  destruct (chunks_from_spec 4000 (length message) message ltac:(lia) ltac:(lia))
    as (Hc & Hf & Hfull & Hup & Hlo).
  repeat split; try assumption.
  apply Nat.div_unique with
    (r := (length message + 3999 - 4000 * length (chunks_from (length message) 4000 message))%nat);
    lia.
Qed.

(** ** Balances *)

Lemma sum_of_cons (n : UserName) (e : IEntry) (es : list IEntry) :
  sum_of n (e :: es) =
  if bool_decide (entry_name e = n) then entry_amount e + sum_of n es
  else sum_of n es.
Proof. reflexivity. Qed.

Lemma sum_of_nonneg (n : UserName) (es : list IEntry) :
  Forall (fun e => 0 <= entry_amount e) es -> 0 <= sum_of n es.
Proof.
  induction 1 as [|e es He _ IH]; [reflexivity|].
  rewrite sum_of_cons. destruct (bool_decide _); lia.
Qed.

Lemma fold_add_balance (n : UserName) (es : list IEntry)
    (bs : option Z * option Z) (a : Z) :
  Forall (fun e => 0 <= entry_amount e) es ->
  balance_of n bs = Some a -> 0 <= a -> a + sum_of n es < 2 ^ 53 ->
  balance_of n (fold_left add_balance es bs) = Some (a + sum_of n es).
Proof.
  intros Hf. revert bs a. induction Hf as [|e es He Hes IH]; intros bs a Hb Ha Hlt.
  - cbn. rewrite Z.add_0_r. exact Hb.
  - cbn [fold_left]. rewrite sum_of_cons in *.
    pose proof (sum_of_nonneg n es Hes) as Hs.
    destruct (bool_decide (entry_name e = n)) eqn:En.
    + apply bool_decide_eq_true in En.
      rewrite (IH _ (a + entry_amount e)); [f_equal; lia| |lia|lia].
      unfold add_balance. rewrite En. destruct n, bs as [x y]; cbn in *; subst;
        cbn; apply Number_of_Z_exact; lia.
    + apply bool_decide_eq_false in En.
      apply IH; [|lia|lia].
      unfold add_balance. destruct (entry_name e), n, bs; cbn in *; congruence.
Qed.

Lemma sum_of_perm (n : UserName) (l l' : list IEntry) :
  Permutation l l' -> sum_of n l = sum_of n l'.
Proof.
  induction 1 as [|x l l' _ IH|x y l|l l' l'' _ IH1 _ IH2];
    rewrite ?sum_of_cons.
  - reflexivity.
  - rewrite IH. reflexivity.
  - destruct (bool_decide _), (bool_decide _); lia.
  - congruence.
Qed.

Lemma sum_of_named (n : UserName) (es : list IEntry) :
  sum_of n (named n es) = sum_of n es.
Proof.
  induction es as [|e es IH]; [reflexivity|]. unfold named in *.
  cbn [List.filter]. rewrite sum_of_cons.
  destruct (bool_decide (entry_name e = n)) eqn:E; [rewrite sum_of_cons, E|];
    rewrite IH; reflexivity.
Qed.

Lemma reduce_from (n : UserName) (l : list IEntry) (a : Z) :
  Forall (fun e => entry_name e = n) l ->
  Forall (fun e => 0 <= entry_amount e) l ->
  0 <= a -> a + sum_of n l < 2 ^ 53 ->
  fold_left (fun sum entry => Number_add sum (Some (entry_amount entry))) l (Some a)
  = Some (a + sum_of n l).
Proof.
  intros Hn Hf. revert a. induction Hf as [|e l He Hl IH]; intros a Ha Hlt.
  - cbn. rewrite Z.add_0_r. reflexivity.
  - inversion Hn as [|? ? Hen Hn']; subst.
    cbn [fold_left]. rewrite sum_of_cons in *.
    rewrite bool_decide_eq_true_2 in * by reflexivity.
    pose proof (sum_of_nonneg (entry_name e) l Hl).
    cbn [Number_add]. rewrite Number_of_Z_exact by lia.
    rewrite IH by (assumption || lia). f_equal. lia.
Qed.

(** While the amounts are non-negative and a person's exact sum is below
    2^53, [getBalances] reads the ledger without changing anything and
    reports that exact sum for the person, and the total of the per-person
    view is the same number in whatever order the query returned that
    person's entries. *)
Theorem balance_views_agree (w : World) (n : UserName) (found : list IEntry) :
  Forall (fun e => 0 <= entry_amount e) (entries w) ->
  sum_of n (entries w) < 2 ^ 53 ->
  Permutation found (named n (entries w)) ->
  exists balances,
    getBalances w = (Returned (balances, entries w), w) /\
    balance_of n balances = Some (sum_of n (entries w)) /\
    reduce_total found = Some (sum_of n (entries w)).
Proof.
  intros Hf Hlt Hp. eexists. split; [reflexivity|]. split.
  - cbn [fst]. rewrite (fold_add_balance n _ _ 0); try assumption; try lia.
    + reflexivity.
    + destruct n; reflexivity.
  - unfold reduce_total.
    assert (Hfn : Forall (fun e => entry_name e = n) found /\
                  Forall (fun e => 0 <= entry_amount e) found).
    { split; apply List.Forall_forall; intros e He;
        apply (Permutation_in _ Hp) in He; apply filter_In in He as [He Hn].
      - apply bool_decide_eq_true in Hn. exact Hn.
      - rewrite List.Forall_forall in Hf. apply Hf, He. }
    destruct Hfn as [Hn Hnn].
    rewrite (reduce_from n) by (try assumption; try lia;
      rewrite (sum_of_perm n _ _ Hp), sum_of_named; lia).
    rewrite (sum_of_perm n _ _ Hp), sum_of_named. reflexivity.
Qed.

(** ** Formatting and parsing amounts *)

(** An amount the bot prints can be typed back: for an integer
    [0 <= n < 2^53] the parser reads [formatKRW n] as [n]. *)
Theorem formatKRW_parse_roundtrip (n : Z) :
  0 <= n < 2 ^ 53 -> parseKrwAmount (formatKRW n) = Some n.
Proof.
  intros [Hn Hlt]. rewrite parseKrwAmount_cases. unfold formatKRW.
  destruct (Number_toString_spec n Hn) as (Hd & Hv & Hs).
  assert (Hns : forallb (fun c => negb (isSeparator c)) (Number_toString n) = true).
  { unfold Number_toString.
    apply (toDigits_spec _ _ (log2_fuel n Hn)). }
  rewrite (group_thousands_strip _ Hns), Hd, Hv.
  apply Number_of_Z_exact, Hlt.
Qed.

Lemma formatKRW_parse_roundtrip_witness :
  0 <= 1234567 < 2 ^ 53 /\
  formatKRW 1234567 = js "1.234.567" /\
  parseKrwAmount (formatKRW 1234567) = Some 1234567.
Proof.
  split; [split; [discriminate|reflexivity]|]. split; [reflexivity|].
  apply (formatKRW_parse_roundtrip 1234567). split; [discriminate|reflexivity].
Defined.

Lemma formatKRW_thousands_witness :
  0 <= 25000 < 2 ^ 53 /\
  formatKRW 25000 = formatKRW 25 ++ DOT :: js "000".
Proof.
  assert (H : 0 <= 25000 < 2 ^ 53) by (split; [discriminate|reflexivity]).
  split; [exact H|].
  exact (formatKRW_thousands 25000 H).
Defined.

Lemma balance_views_agree_witness :
  let tea := mkEntry (js "t1") Polvon 3000 (js "tea") 950 in
  let w := Sample.world_with Sample.first_user (mkSession None None)
             [Sample.lunch; tea] in
  sum_of Polvon (entries w) < 2 ^ 53 /\
  reduce_total [tea; Sample.lunch] = Some 10000.
Proof.
  intros tea w.
  assert (Hlt : sum_of Polvon (entries w) < 2 ^ 53) by reflexivity.
  split; [exact Hlt|].
  assert (Hnn : Forall (fun e => 0 <= entry_amount e) (entries w)).
  { repeat constructor; discriminate. }
  destruct (balance_views_agree w Polvon [tea; Sample.lunch] Hnn Hlt
              (perm_swap _ _ _)) as (b & _ & _ & E).
  exact E.
Defined.

(** ** Reports and the preview of [/clear] *)

Lemma named_in (n : UserName) (es : list IEntry) (e : IEntry) :
  In e (named n es) <-> In e es /\ entry_name e = n.
Proof.
  unfold named. rewrite filter_In. split; intros [H1 H2]; split; try assumption.
  - apply bool_decide_eq_true in H2. exact H2.
  - apply bool_decide_eq_true. exact H2.
Qed.

Lemma named_sorted (n : UserName) (es : list IEntry) :
  StronglySorted newer_or_same es -> StronglySorted newer_or_same (named n es).
Proof.
  induction 1 as [|e es Hs IH He]; [constructor|]. unfold named in *.
  cbn [List.filter]. destruct (bool_decide _); [|exact IH].
  constructor; [exact IH|]. apply List.Forall_forall. intros x Hx.
  apply filter_In in Hx as [Hx _]. rewrite List.Forall_forall in He. apply He, Hx.
Qed.

Lemma named_lengths (es : list IEntry) :
  (length (named Sheyx es) + length (named Polvon es) = length es)%nat.
Proof.
  induction es as [|e es IH]; [reflexivity|]. unfold named in *.
  cbn [List.filter]. destruct (entry_name e).
  - change (bool_decide (Sheyx = Sheyx)) with true.
    change (bool_decide (Sheyx = Polvon)) with false. cbn [length]. lia.
  - change (bool_decide (Polvon = Sheyx)) with false.
    change (bool_decide (Polvon = Polvon)) with true. cbn [length]. lia.
Qed.

Lemma named_all (n : UserName) (es : list IEntry) :
  Forall (fun e => entry_name e = n) (named n es).
Proof. apply List.Forall_forall. intros e He. apply named_in in He as [_ He]. exact He. Qed.

(** The report of [buildDetailedReportText]: one reading of the clock for
    the header and nothing else touched; every entry given lands in the list
    of its person and in no other; each list is newest first; the balances
    are the ones passed in. *)
Theorem report_groups_every_entry (Date_now : nat -> Z) (es : list IEntry)
    (balances : option Z * option Z) (w : World) :
  exists r,
    buildDetailedReportText Date_now es balances w
    = (Returned r,
       mkWorld (entries w) (sessions w) (last_entries_txt w) (outbox w)
               (nanoid_calls w) (S (Date_calls w))) /\
    report_now r = Date_now (Date_calls w) /\
    report_balances r = balances /\
    (forall e, In e (report_Sheyx r) <-> In e es /\ entry_name e = Sheyx) /\
    (forall e, In e (report_Polvon r) <-> In e es /\ entry_name e = Polvon) /\
    StronglySorted newer_or_same (report_Sheyx r) /\
    StronglySorted newer_or_same (report_Polvon r) /\
    (length (report_Sheyx r) + length (report_Polvon r) = length es)%nat.
Proof.
  destruct (sort_newest_first_spec es) as (Hp & Hs & _).
  eexists. split; [reflexivity|].
  cbn [report_now report_balances report_Sheyx report_Polvon].
  assert (Hin : forall n e, In e (named n (sort_newest_first es))
                            <-> In e es /\ entry_name e = n).
  { intros n e. rewrite named_in. split; intros [He Hn]; (split; [|exact Hn]).
    - apply (Permutation_in _ Hp), He.
    - apply (Permutation_in _ (Permutation_sym Hp)), He. }
  split; [reflexivity|]. split; [reflexivity|].
  split; [apply Hin|]. split; [apply Hin|].
  split; [apply named_sorted, Hs|]. split; [apply named_sorted, Hs|].
  rewrite named_lengths. apply Permutation_length, Hp.
Qed.

Lemma in_take (k : nat) (l : list IEntry) (x : IEntry) :
  In x (take k l) -> In x l.
Proof.
  revert k. induction l as [|y l IH]; intros [|k] H; cbn in *; try contradiction.
  destruct H as [H|H]; [left; exact H|right; eapply IH, H].
Qed.

Lemma in_drop (k : nat) (l : list IEntry) (x : IEntry) :
  In x (drop k l) -> In x l.
Proof.
  revert k. induction l as [|y l IH]; intros [|k] H; cbn in *; try contradiction.
  - exact H.
  - right. eapply IH, H.
Qed.

Lemma sorted_take (k : nat) (l : list IEntry) :
  StronglySorted newer_or_same l -> StronglySorted newer_or_same (take k l).
Proof.
  intros Hs. revert k. induction Hs as [|e l Hl IH He]; intros [|k]; cbn;
    try constructor.
  - apply IH.
  - apply List.Forall_forall. intros x Hx. rewrite List.Forall_forall in He.
    eapply He, in_take, Hx.
Qed.

Lemma sorted_take_drop (k : nat) (l : list IEntry) (a b : IEntry) :
  StronglySorted newer_or_same l ->
  In a (take k l) -> In b (drop k l) -> newer_or_same a b.
Proof.
  intros Hs. revert k. induction Hs as [|e l Hl IH He]; intros [|k] Ha Hb; cbn in *;
    try contradiction.
  destruct Ha as [<-|Ha].
  - rewrite List.Forall_forall in He. eapply He, in_drop, Hb.
  - eapply IH; eassumption.
Qed.

(** The preview that [/clear] files and sends to the administrator lists
    the four newest entries of the ledger (all of them when there are fewer)
    and no entry left out is newer than a listed one, while its balances are
    those of the whole ledger; the ledger and the sessions are not touched. *)
Theorem clear_preview_is_newest_four (ADMIN_ID : jsstring) (Date_now : nat -> Z)
    (ctx : Ctx) (w : World) :
  includes ALLOWED_USERS (userId_of ctx) = true ->
  exists r o,
    otherUser (userId_of ctx) = Some o /\
    sent_by (command_clear ADMIN_ID Date_now ctx) w
    = [SendDocument ADMIN_ID r;
       SendMessage o (ClearRequest (ctx_from ctx ≫= from_username));
       Reply (ctx_chat ctx) ClearRequestSent] /\
    last_entries_txt (after (command_clear ADMIN_ID Date_now ctx) w) = Some r /\
    entries (after (command_clear ADMIN_ID Date_now ctx) w) = entries w /\
    sessions (after (command_clear ADMIN_ID Date_now ctx) w) = sessions w /\
    let listed := report_Sheyx r ++ report_Polvon r in
    length listed = Nat.min 4 (length (entries w)) /\
    (forall e, In e listed -> In e (entries w)) /\
    (forall e p, In e (entries w) -> ~ In e listed -> In p listed ->
                 entry_time e <= entry_time p) /\
    report_balances r = fold_left add_balance (entries w) (Some 0, Some 0).
Proof.
  intros H. destruct (otherUser_swaps _ H) as (o & Ho & _ & _).
  destruct (sort_newest_first_spec (entries w)) as (Hp & Hs & _).
  pose proof (sort_sorted_id _ (sorted_take 4 _ Hs)) as Hid.
  open_world w. unfold command_clear. rewrite H, Ho. run_M.
  rewrite Hid.
  set (top := take 4 (sort_newest_first es)) in *.
  eexists _, o. split; [reflexivity|].
  rewrite <- !app_assoc. cbn [app]. rewrite drop_outbox.
  split; [reflexivity|]. split; [reflexivity|]. split; [reflexivity|].
  split; [reflexivity|].
  cbn [report_Sheyx report_Polvon report_balances].
  assert (Hlisted : forall e, In e (named Sheyx top ++ named Polvon top) <-> In e top).
  { intros e. rewrite in_app_iff, !named_in. split.
    - intros [[He _]|[He _]]; exact He.
    - intros He. destruct (entry_name e) eqn:En; [left|right]; split; auto. }
  split; [|split; [|split]].
  - rewrite length_app, named_lengths. subst top.
    rewrite length_take, (Permutation_length Hp). reflexivity.
  - intros e He. apply Hlisted in He. apply (Permutation_in _ Hp).
    eapply in_take, He.
  - intros e p He Hne Hp'. apply Hlisted in Hp'.
    assert (Hd : In e (drop 4 (sort_newest_first es))).
    { apply (Permutation_in _ (Permutation_sym Hp)) in He.
      rewrite <- (take_drop 4 (sort_newest_first es)) in He.
      apply in_app_or in He as [He|He]; [|exact He].
      exfalso. apply Hne, Hlisted, He. }
    apply (sorted_take_drop 4 _ p e Hs Hp' Hd).
  - reflexivity.
Qed.

Lemma clear_preview_is_newest_four_witness :
  let ctx := Sample.said Sample.first_user "/clear" in
  let w := Sample.world_with Sample.first_user (mkSession None None) [Sample.lunch] in
  includes ALLOWED_USERS (userId_of ctx) = true /\
  exists r, last_entries_txt (after (command_clear Sample.admin Sample.ticking ctx) w)
            = Some r /\
            report_Sheyx r ++ report_Polvon r = [Sample.lunch].
Proof.
  intros ctx w. split; [reflexivity|].
  destruct (clear_preview_is_newest_four Sample.admin Sample.ticking ctx w eq_refl)
    as (r & o & _ & _ & Hfile & _).
  exists r. split; [exact Hfile|].
  vm_compute in Hfile. injection Hfile as <-. reflexivity.
Defined.

(** ** The handlers' own identity checks *)

(** [/clear], approve and deny each check the allow-list themselves: for an
    identity outside it they only reply that it is not authorized; nothing
    is filed, sent to anyone else, deleted or changed. *)
Theorem clear_handlers_refuse_strangers (ADMIN_ID : jsstring)
    (Date_now : nat -> Z) (ctx : Ctx) (w : World) :
  includes ALLOWED_USERS (userId_of ctx) = false ->
  let refused :=
    (Returned tt, with_outbox (outbox w ++ [Reply (ctx_chat ctx) NotAuthorized]) w) in
  command_clear ADMIN_ID Date_now ctx w = refused /\
  action_approve_clear ctx w = refused /\
  action_deny_clear ctx w = refused.
Proof.
  intros H refused. unfold command_clear, action_approve_clear, action_deny_clear.
  rewrite H. repeat split.
Qed.

Lemma clear_handlers_refuse_strangers_witness :
  let ctx := Sample.tapped Sample.stranger in
  let w := Sample.world_with Sample.first_user (mkSession None None) [Sample.lunch] in
  includes ALLOWED_USERS (userId_of ctx) = false /\
  entries (after (action_approve_clear ctx) w) = [Sample.lunch].
Proof.
  intros ctx w. split; [reflexivity|].
  destruct (clear_handlers_refuse_strangers Sample.admin Sample.ticking ctx w eq_refl)
    as (_ & E & _).
  unfold after. rewrite E. reflexivity.
Defined.

(** ** The add flow, step after step *)

(** Evaluate the session updates of a run once the lookups are known. *)
Ltac step_sessions :=
  repeat progress
    (cbv [apply_update default from_option id set_name set_mode
          session_name session_mode];
     run_M; rewrite ?lookup_insert_eq, ?insert_insert_eq).

(** From any world, a tap on a participant, a tap on a mode and an amount
    leave exactly one new entry for that participant, of the full amount
    under [debt] and of the rounded half under [expenses], and an idle
    session, whatever the session held before. *)
Theorem choose_mode_text_flow (nanoid : nat -> jsstring) (Date_now : nat -> Z)
    (tap1 tap2 msg : Ctx) (w : World) (who : UserName) (m : Mode)
    (text : jsstring) (T : Z) :
  userId_of tap1 = userId_of msg ->
  userId_of tap2 = userId_of msg ->
  ctx_message_text msg = Some text ->
  parseKrwAmount (hd [] (split SPACE (trim text))) = Some T ->
  let choose_mode :=
    match m with debt => action_type_debt | expenses => action_type_expenses end in
  let w2 := after (choose_mode tap2) (after (action_choose_person who tap1) w) in
  let w3 := after (on_text nanoid Date_now msg) w2 in
  let recorded :=
    match m with debt => T | expenses => Math_round (half_of T) end in
  fst (on_text nanoid Date_now msg w2) = Returned tt /\
  entries w3 =
    entries w ++
    [mkEntry (nanoid (nanoid_calls w)) who recorded
             (join SPACE (tl (split SPACE (trim text))))
             (Date_now (Date_calls w))] /\
  sessions w3 = <[userId_of msg := mkSession None None]> (sessions w).
Proof.
  intros E1 E2 Ht Hp choose_mode w2 w3 recorded.
  subst choose_mode w2 w3 recorded. open_world w.
  destruct m;
    unfold action_choose_person, action_type_debt, action_type_expenses, on_text;
    rewrite E1, E2; set (uid := userId_of msg);
    run_M; destruct (ss !! uid) as [s|]; step_sessions;
    rewrite Ht, Hp; step_sessions;
    rewrite ?(bool_decide_eq_true_2 (Some expenses = Some expenses)) by reflexivity;
    rewrite ?(bool_decide_eq_false_2 (Some debt = Some expenses)) by discriminate;
    step_sessions;
    destruct (bool_decide _), (bool_decide _); repeat split.
Qed.

Lemma choose_mode_text_flow_witness :
  let u := Sample.second_user in
  let w := Sample.world_with u (mkSession (Some Umumiy) (Some expenses)) [Sample.lunch] in
  let w2 := after (action_type_expenses (Sample.tapped u))
                  (after (action_choose_person Sheyx (Sample.tapped u)) w) in
  parseKrwAmount (hd [] (split SPACE (trim (js "9.001 taxi")))) = Some 9001 /\
  entries (after (on_text Sample.ids Sample.ticking (Sample.said u "9.001 taxi")) w2)
  = [Sample.lunch; mkEntry (js "entry0") Sheyx 4501 (js "taxi") 1000].
Proof.
  intros u w w2. split; [reflexivity|].
  exact (proj1 (proj2
    (choose_mode_text_flow Sample.ids Sample.ticking (Sample.tapped u)
       (Sample.tapped u) (Sample.said u "9.001 taxi") w Sheyx expenses
       (js "9.001 taxi") 9001 eq_refl eq_refl eq_refl eq_refl))).
Defined.

(** From any world, a tap on the split target and an amount leave two new
    entries, Sheyx's then Polvon's, of the rounded half each, and an idle
    session. *)
Theorem choose_split_text_flow (nanoid : nat -> jsstring) (Date_now : nat -> Z)
    (tap msg : Ctx) (w : World) (text : jsstring) (T : Z) :
  userId_of tap = userId_of msg ->
  ctx_message_text msg = Some text ->
  parseKrwAmount (hd [] (split SPACE (trim text))) = Some T ->
  let w1 := after (action_choose_Umumiy tap) w in
  let w2 := after (on_text nanoid Date_now msg) w1 in
  let share := Math_round (half_of T) in
  let note := join SPACE (tl (split SPACE (trim text))) in
  fst (on_text nanoid Date_now msg w1) = Returned tt /\
  entries w2 =
    entries w ++
    [mkEntry (nanoid (nanoid_calls w)) Sheyx share note (Date_now (Date_calls w));
     mkEntry (nanoid (S (nanoid_calls w))) Polvon share note
             (Date_now (S (Date_calls w)))] /\
  sessions w2 = <[userId_of msg := mkSession None None]> (sessions w).
Proof.
  intros E Ht Hp w1 w2 share note. subst w1 w2 share note. open_world w.
  unfold action_choose_Umumiy, on_text. rewrite E. set (uid := userId_of msg).
  run_M; destruct (ss !! uid) as [s|]; step_sessions;
    rewrite Ht, Hp; step_sessions;
    destruct (bool_decide _), (bool_decide _); repeat split.
Qed.

Lemma choose_split_text_flow_witness :
  let u := Sample.first_user in
  parseKrwAmount (hd [] (split SPACE (trim (js "7 gum")))) = Some 7 /\
  entries (after (on_text Sample.ids Sample.frozen (Sample.said u "7 gum"))
                 (after (action_choose_Umumiy (Sample.tapped u)) Sample.empty))
  = [mkEntry (js "entry0") Sheyx 4 (js "gum") 1000;
     mkEntry (js "entry1") Polvon 4 (js "gum") 1000].
Proof.
  intros u. split; [reflexivity|].
  exact (proj1 (proj2
    (choose_split_text_flow Sample.ids Sample.frozen (Sample.tapped u)
       (Sample.said u "7 gum") Sample.empty (js "7 gum") 7
       eq_refl eq_refl eq_refl))).
Defined.

(** ** Cancelling, and mode buttons without a selection *)

(** Either form of cancel leaves the ledger alone, touches nobody else's
    session, creates no session where there was none, and makes the next
    text of the same user a no-op. *)
Theorem cancel_discards_selection (nanoid : nat -> jsstring) (Date_now : nat -> Z)
    (c msg : Ctx) (w : World) :
  userId_of c = userId_of msg ->
  forall cancel, cancel = command_cancel \/ cancel = action_choose_cancel ->
  let w1 := after (cancel c) w in
  fst (cancel c w) = Returned tt /\
  entries w1 = entries w /\
  (sessions w !! userId_of msg = None -> sessions w1 = sessions w) /\
  (forall other, other <> userId_of msg ->
     sessions w1 !! other = sessions w !! other) /\
  on_text nanoid Date_now msg w1 = (Returned tt, w1).
Proof.
  intros E cancel Hc w1. subst w1. open_world w.
  destruct Hc as [-> | ->]; unfold command_cancel, action_choose_cancel, on_text;
    rewrite E; set (uid := userId_of msg); run_M;
    destruct (ss !! uid) as [s|] eqn:Hs; step_sessions; rewrite ?Hs;
    (split; [reflexivity|]); (split; [reflexivity|]);
    (split; [try discriminate; reflexivity|]);
    (split; [intros other Ho; rewrite ?lookup_insert_ne by congruence; reflexivity
            |reflexivity]).
Qed.

Lemma cancel_discards_selection_witness :
  let u := Sample.first_user in
  let w := Sample.world_with u (mkSession (Some (Person Polvon)) (Some debt))
                             [Sample.lunch] in
  let w1 := after (command_cancel (Sample.said u "/cancel")) w in
  userId_of (Sample.said u "/cancel") = userId_of (Sample.said u "500 tea") /\
  on_text Sample.ids Sample.ticking (Sample.said u "500 tea") w1 = (Returned tt, w1).
Proof.
  intros u w w1. split; [reflexivity|].
  apply (cancel_discards_selection Sample.ids Sample.ticking
           (Sample.said u "/cancel") (Sample.said u "500 tea") w eq_refl
           command_cancel). left. reflexivity.
Defined.

(** [/add] starts over from any state: the sender's session exists
    afterwards and is idle, nobody else's session and no entry is touched,
    and a text sent before any button is tapped is ignored. *)
Theorem add_starts_over (nanoid : nat -> jsstring) (Date_now : nat -> Z)
    (c msg : Ctx) (w : World) :
  userId_of c = userId_of msg ->
  let w1 := after (command_add c) w in
  fst (command_add c w) = Returned tt /\
  sessions w1 !! userId_of msg = Some (mkSession None None) /\
  (forall other, other <> userId_of msg ->
     sessions w1 !! other = sessions w !! other) /\
  entries w1 = entries w /\
  on_text nanoid Date_now msg w1 = (Returned tt, w1).
Proof.
  intros E w1. subst w1. open_world w. unfold command_add, on_text.
  rewrite E. set (uid := userId_of msg). run_M.
  destruct (ss !! uid) as [s|]; step_sessions;
    (split; [reflexivity|]); (split; [reflexivity|]);
    (split; [intros other Ho; apply lookup_insert_ne; congruence|]);
    split; reflexivity.
Qed.

Lemma add_starts_over_witness :
  let u := Sample.first_user in
  let w := Sample.world_with u (mkSession (Some Umumiy) None) [Sample.lunch] in
  let w1 := after (command_add (Sample.said u "/add")) w in
  userId_of (Sample.said u "/add") = userId_of (Sample.said u "500 tea") /\
  on_text Sample.ids Sample.ticking (Sample.said u "500 tea") w1 = (Returned tt, w1).
Proof.
  intros u w w1. split; [reflexivity|].
  apply (add_starts_over Sample.ids Sample.ticking (Sample.said u "/add")
           (Sample.said u "500 tea") w eq_refl).
Defined.

(** A tap on a mode button while no participant is selected selects
    nothing: it creates no session, the name stays unset, the ledger is
    untouched, and the next text of the same user is still ignored. *)
Theorem mode_without_person_is_inert (nanoid : nat -> jsstring)
    (Date_now : nat -> Z) (tap msg : Ctx) (w : World) :
  userId_of tap = userId_of msg ->
  (sessions w !! userId_of msg = None \/
   exists s, sessions w !! userId_of msg = Some s /\ session_name s = None) ->
  forall choose_mode,
    choose_mode = action_type_debt \/ choose_mode = action_type_expenses ->
    let w1 := after (choose_mode tap) w in
    fst (choose_mode tap w) = Returned tt /\
    entries w1 = entries w /\
    (sessions w !! userId_of msg = None -> sessions w1 = sessions w) /\
    on_text nanoid Date_now msg w1 = (Returned tt, w1).
Proof.
  intros E Hidle choose_mode Hc w1. subst w1. open_world w.
  destruct Hc as [-> | ->]; unfold action_type_debt, action_type_expenses, on_text;
    rewrite E; set (uid := userId_of msg) in *; run_M;
    destruct Hidle as [Hs|([nm md] & Hs & Hn)]; try (cbn in Hn; subst nm);
    rewrite ?Hs; step_sessions;
    (split; [reflexivity|]); (split; [reflexivity|]);
    (split; [try discriminate; reflexivity|reflexivity]).
Qed.

Lemma mode_without_person_is_inert_witness :
  let u := Sample.first_user in
  let w := Sample.world_with u (mkSession None None) [] in
  let w1 := after (action_type_expenses (Sample.tapped u)) w in
  sessions w !! u = Some (mkSession None None) /\
  on_text Sample.ids Sample.ticking (Sample.said u "500 tea") w1 = (Returned tt, w1).
Proof.
  intros u w w1. split; [reflexivity|].
  apply (mode_without_person_is_inert Sample.ids Sample.ticking (Sample.tapped u)
           (Sample.said u "500 tea") w eq_refl
           (or_intror (ex_intro _ (mkSession None None) (conj eq_refl eq_refl)))
           action_type_expenses).
  right. reflexivity.
Defined.

(** ** What the text handler never does *)

Lemma Math_round_half_nonneg (T : Z) : 0 <= T -> 0 <= Math_round (half_of T).
Proof. intros H. rewrite Math_round_half_of. apply Z.div_pos; lia. Qed.

(** Whatever the message, the sender and the world, the text handler only
    appends to the ledger: the entries there stay, in place and unchanged,
    at most two are added, their amounts are non-negative, and no session
    other than the sender's is touched. *)
Theorem on_text_only_appends (nanoid : nat -> jsstring) (Date_now : nat -> Z)
    (ctx : Ctx) (w : World) :
  exists new,
    entries (after (on_text nanoid Date_now ctx) w) = entries w ++ new /\
    (length new <= 2)%nat /\
    Forall (fun e => 0 <= entry_amount e) new /\
    (forall other, other <> userId_of ctx ->
       sessions (after (on_text nanoid Date_now ctx) w) !! other
       = sessions w !! other).
Proof.
  open_world w. unfold on_text. set (uid := userId_of ctx). run_M.
  assert (Hnone : exists new : list IEntry,
            es = es ++ new /\ (length new <= 2)%nat /\
            Forall (fun e => 0 <= entry_amount e) new /\
            (forall other, other <> uid -> ss !! other = ss !! other)).
  { exists []. rewrite app_nil_r. repeat split; [cbn; lia|constructor]. }
  destruct (ss !! uid) as [s|] eqn:Hs; [|exact Hnone].
  destruct (session_name s) as [name|]; [|exact Hnone].
  destruct (ctx_message_text ctx) as [text|]; [|exact Hnone].
  destruct (parseKrwAmount _) as [T|] eqn:Hp; [|exact Hnone].
  pose proof (parseKrwAmount_nonneg _ _ Hp) as HT.
  pose proof (Math_round_half_nonneg T HT) as Hhalf.
  destruct name as [who|]; [destruct (bool_decide (session_mode s = Some expenses))|];
    rewrite Hs; step_sessions;
    destruct (bool_decide _), (bool_decide _); step_sessions;
    eexists; (split; [reflexivity|]); (split; [cbn; lia|]);
    (split; [repeat constructor; assumption|]);
    intros other Ho; apply lookup_insert_ne; congruence.
Qed.

(** ** Deleting one entry *)

(** Decide the comparisons of two known identities. *)
Ltac decide_identities :=
  repeat match goal with
  | |- context [bool_decide (js ?a = js ?b)] =>
      let v := eval vm_compute in (bool_decide (js a = js b)) in
      change (bool_decide (js a = js b)) with v
  end.

Lemma remove_first_perm (i : jsstring) (es : list IEntry) (e : IEntry) :
  List.find (fun e => bool_decide (entry_id e = i)) es = Some e ->
  Permutation (e :: remove_first i es) es /\ entry_id e = i.
Proof.
  induction es as [|x es IH]; cbn; [discriminate|].
  destruct (bool_decide (entry_id x = i)) eqn:Ex.
  - intros [= <-]. apply bool_decide_eq_true in Ex. split; [reflexivity|exact Ex].
  - intros Hf. destruct (IH Hf) as [Hp Hi]. split; [|exact Hi].
    rewrite perm_swap, Hp. reflexivity.
Qed.

(** When the administrator is allow-listed and sends [/delete <id>] for an
    id some entry has, the first entry with that id is removed and no other:
    the ledger afterwards, with that entry put back, is a rearrangement of
    the ledger before.  The sender gets the confirmation and the other
    allow-listed identity is shown the deleted entry; the sessions are not
    touched. *)
Theorem delete_by_admin_removes_one (ctx : Ctx) (w : World)
    (text command entryId : jsstring) :
  includes ALLOWED_USERS (userId_of ctx) = true ->
  ctx_message_text ctx = Some text ->
  split SPACE text = [command; entryId] ->
  In entryId (map entry_id (entries w)) ->
  let ADMIN_ID := userId_of ctx in
  let w' := after (command_delete ADMIN_ID ctx) w in
  exists e o,
    otherUser (userId_of ctx) = Some o /\
    entry_id e = entryId /\
    fst (command_delete ADMIN_ID ctx w) = Returned tt /\
    entries w' = remove_first entryId (entries w) /\
    Permutation (e :: entries w') (entries w) /\
    sessions w' = sessions w /\
    sent_by (command_delete ADMIN_ID ctx) w
    = [Reply (ctx_chat ctx) (EntryDeleted entryId);
       SendMessage o (EntryDeletedByAdmin e)].
Proof.
  intros Ha Ht Hs Hin ADMIN_ID w'. subst ADMIN_ID w'.
  destruct (findOne_present _ _ Hin) as [e Hf].
  destruct (remove_first_perm _ _ _ Hf) as [Hperm Hid].
  destruct (otherUser_swaps _ Ha) as (o & Ho & _ & _).
  exists e, o. split; [exact Ho|]. split; [exact Hid|].
  open_world w. unfold command_delete. run_M.
  pose proof Ha as Ha'. unfold ALLOWED_USERS in Ha'.
  rewrite Ht, Hs, Ha'. cbn [length Nat.eqb nth orb]. rewrite Hf.
  rewrite (bool_decide_eq_true_2 (userId_of ctx = userId_of ctx)) by reflexivity.
  run_M.
  destruct (allowed_cases _ Ha) as [E|E]; rewrite E in *;
    injection Ho as <-; unfold Sample.first_user, Sample.second_user;
    decide_identities; run_M;
    repeat split; try exact Hperm;
    rewrite <- ?app_assoc; cbn [app]; apply drop_outbox.
Qed.

Lemma delete_by_admin_removes_one_witness :
  let ctx := Sample.said Sample.first_user "/delete abc123" in
  let twin := mkEntry (js "abc123") Sheyx 1 (js "twin") 950 in
  let w := Sample.world_with Sample.first_user (mkSession None None)
             [Sample.lunch; twin] in
  In (js "abc123") (map entry_id (entries w)) /\
  entries (after (command_delete Sample.first_user ctx) w) = [twin].
Proof.
  intros ctx twin w. split; [left; reflexivity|].
  destruct (delete_by_admin_removes_one ctx w (js "/delete abc123") (js "/delete")
              (js "abc123") eq_refl eq_refl eq_refl (or_introl eq_refl))
    as (e & o & _ & _ & _ & E & _).
  exact E.
Defined.

(** A [/delete] message that is not the command, one space and one id (no
    id, two spaces in a row, a trailing word) gets the usage text whoever
    sends it, and nothing else happens: no lookup, no deletion. *)
Theorem delete_usage_on_other_shapes (ADMIN_ID : jsstring) (ctx : Ctx)
    (w : World) (text : jsstring) :
  ctx_message_text ctx = Some text ->
  length (split SPACE text) <> 2%nat ->
  command_delete ADMIN_ID ctx w
  = (Returned tt, with_outbox (outbox w ++ [Reply (ctx_chat ctx) DeleteUsage]) w).
Proof.
  intros Ht Hl. open_world w. unfold command_delete. run_M. rewrite Ht.
  destruct (Nat.eqb_spec (length (split SPACE text)) 2) as [E|_]; [contradiction|].
  reflexivity.
Qed.

Lemma delete_usage_on_other_shapes_witness :
  let ctx := Sample.said Sample.first_user "/delete  abc123" in
  let w := Sample.world_with Sample.first_user (mkSession None None) [Sample.lunch] in
  length (split SPACE (js "/delete  abc123")) <> 2%nat /\
  entries (after (command_delete Sample.admin ctx) w) = [Sample.lunch].
Proof.
  intros ctx w.
  assert (Hl : length (split SPACE (js "/delete  abc123")) <> 2%nat) by discriminate.
  split; [exact Hl|].
  unfold after.
  rewrite (delete_usage_on_other_shapes Sample.admin ctx w (js "/delete  abc123")
             eq_refl Hl).
  reflexivity.
Defined.

(** ** Who is told of a commit *)

(** After a commit by an allow-listed identity the handler issues exactly
    two calls: the confirmation to the sender's chat, then one notice, to
    the other allow-listed identity and never to the sender.  The notice
    carries a reading of the clock taken after the entries were built. *)
Theorem commit_notifies_the_other_user (nanoid : nat -> jsstring)
    (Date_now : nat -> Z) (ctx : Ctx) (w : World) (s : ISession)
    (name : SessionName) (text : jsstring) (T : Z) :
  includes ALLOWED_USERS (userId_of ctx) = true ->
  sessions w !! userId_of ctx = Some s ->
  session_name s = Some name ->
  ctx_message_text ctx = Some text ->
  parseKrwAmount (hd [] (split SPACE (trim text))) = Some T ->
  let note := join SPACE (tl (split SPACE (trim text))) in
  let half := Math_round (half_of T) in
  exists o,
    otherUser (userId_of ctx) = Some o /\ o <> userId_of ctx /\
    sent_by (on_text nanoid Date_now ctx) w =
    match name with
    | Umumiy =>
        [Reply (ctx_chat ctx) (UmumiyRecorded T half);
         SendMessage o (UmumiyNotice T half note (Date_now (S (S (Date_calls w)))))]
    | Person _ =>
        if bool_decide (session_mode s = Some expenses)
        then [Reply (ctx_chat ctx) (ExpensesRecorded name T half);
              SendMessage o (ExpensesNotice name half T note
                                            (Date_now (S (Date_calls w))))]
        else [Reply (ctx_chat ctx) (DebtRecorded name T);
              SendMessage o (DebtNotice name T note (Date_now (S (Date_calls w))))]
    end.
Proof.
  intros Ha Hs Hn Ht Hp note half. subst note half.
  destruct (otherUser_swaps _ Ha) as (o & Ho & _ & _).
  exists o. split; [exact Ho|].
  open_world w. unfold on_text. run_M. rewrite Hs, Hn, Ht, Hp.
  destruct (allowed_cases _ Ha) as [E|E]; rewrite E in *; injection Ho as <-;
    (split; [discriminate|]);
    destruct name as [who|];
    [destruct (bool_decide (session_mode s = Some expenses))| |
     destruct (bool_decide (session_mode s = Some expenses))|];
    rewrite Hs; unfold Sample.first_user, Sample.second_user;
    decide_identities; step_sessions;
    rewrite <- ?app_assoc; cbn [app]; apply drop_outbox.
Qed.

Lemma commit_notifies_the_other_user_witness :
  let u := Sample.second_user in
  let ctx := Sample.said u "1.000 rice" in
  let s := mkSession (Some (Person Polvon)) (Some debt) in
  let w := Sample.world_with u s [] in
  includes ALLOWED_USERS (userId_of ctx) = true /\
  sent_by (on_text Sample.ids Sample.ticking ctx) w
  = [Reply u (DebtRecorded (Person Polvon) 1000);
     SendMessage Sample.first_user
       (DebtNotice (Person Polvon) 1000 (js "rice") 1001)].
Proof.
  intros u ctx s w. split; [reflexivity|].
  destruct (commit_notifies_the_other_user Sample.ids Sample.ticking ctx w s
              (Person Polvon) (js "1.000 rice") 1000
              eq_refl eq_refl eq_refl eq_refl eq_refl) as (o & Ho & _ & E).
  rewrite E. injection Ho as <-. reflexivity.
Defined.

(** ** The scheduled job *)


